(** * Face redaction pipeline: the matcher, the render and detection loops,
      the session controller and the gallery, embedded from the React
      components [VideoStream] and [FaceManager].

    JavaScript values are modelled as far as the components look at them.
    What the browser and face-api.js provide (JSON.parse, the numeric
    conversions of the typed-array constructor, euclideanDistance, the
    detector) is collected in the [Platform] class and left uninterpreted. *)

From Stdlib Require Import List String Ascii Bool Arith ZArith Lia.
From Stdlib Require Import QArith Qminmax Qabs Qround.
From Stdlib Require Import DecimalString DecimalNat DecimalZ.
Import ListNotations.

Set Implicit Arguments.
Set Warnings "-register-all".
Close Scope Q_scope.

(* ===================================================================== *)
(** ** JavaScript values *)
(* ===================================================================== *)

Module Js.

(** The values JSON.parse can produce. An object is its list of own
    properties; the first binding of a key is the property. *)
Inductive Json : Type :=
| JNull
| JBool (b : bool)
| JNum (n : Q)
| JStr (s : string)
| JArr (elems : list Json)
| JObj (props : list (string * Json)).

(** A property read: [None] is [undefined]. *)
Definition JsValue := option Json.

Inductive Error : Type :=
| SyntaxError
| TypeError
| RangeError
| OtherError (message : string).

(** A computation that returns or throws. *)
Inductive Exn (A : Type) : Type :=
| Ok (a : A)
| Throw (e : Error).
Arguments Ok {A} a.
Arguments Throw {A} e.

Definition bind {A B} (c : Exn A) (k : A -> Exn B) : Exn B :=
  match c with
  | Ok a => k a
  | Throw e => Throw e
  end.

(** [arr.map(f)] where [f] may throw: the first exception aborts the map. *)
Fixpoint mapM {A B} (f : A -> Exn B) (l : list A) : Exn (list B) :=
  match l with
  | [] => Ok []
  | a :: rest =>
      bind (f a) (fun b => bind (mapM f rest) (fun bs => Ok (b :: bs)))
  end.

(** Elements of a Float32Array. *)
Inductive float32 : Type :=
| Finite (q : Q)
| NaN
| Infinite (negative : bool).

Definition Float32Array := list float32.

Fixpoint getProp (key : string) (o : list (string * Json)) : JsValue :=
  match o with
  | [] => None
  | (k, v) :: rest => if String.eqb k key then Some v else getProp key rest
  end.

Fixpoint deleteProp (key : string) (o : list (string * Json))
  : list (string * Json) :=
  match o with
  | [] => []
  | (k, v) :: rest =>
      if String.eqb k key then deleteProp key rest
      else (k, v) :: deleteProp key rest
  end.

(** Number to string for the integers used as array indices. *)
Definition decimal (n : nat) : string :=
  NilEmpty.string_of_uint (Nat.to_uint n).

(** Number to string for an integral number ([n + '']). *)
Definition decimalZ (z : Z) : string :=
  NilEmpty.string_of_int (Z.to_int z).

Definition indexed {A} (l : list A) : list (string * A) :=
  combine (map decimal (seq 0 (List.length l))) l.

Definition chars (s : string) : list Json :=
  map (fun c => JStr (String c EmptyString)) (list_ascii_of_string s).

(** Own enumerable properties, as object spread [{...v}] copies them. *)
Definition ownProps (v : Json) : list (string * Json) :=
  match v with
  | JObj o => o
  | JArr l => indexed l
  | JStr s => indexed (chars s)
  | JNull | JBool _ | JNum _ => []
  end.

(** [v.key] for a string key that is neither an index nor [length]:
    throws on null, reads the own property of an object, and is
    [undefined] on the other values. *)
Definition readProp (v : Json) (key : string) : Exn JsValue :=
  match v with
  | JNull => Throw TypeError
  | JObj o => Ok (getProp key o)
  | _ => Ok None
  end.

(** A JavaScript number, as far as a comparison looks at it. *)
Inductive Number : Type :=
| Num (q : Q)
| NumNaN
| NumInf (negative : bool).

(** What the components take from the browser and from face-api.js. *)
Class Platform : Type := {
  (** JSON.parse; [None] when it throws SyntaxError. *)
  JSON_parse : string -> option Json;
  (** ToNumber followed by rounding to 32 bits, as the typed-array
      constructor applies to each element ([None] is [undefined]). *)
  toFloat32 : JsValue -> float32;
  (** Length the typed-array constructor allocates for a number or a
      string argument (ToIndex); [None] when it throws RangeError. *)
  toIndex : Json -> option nat;
  (** Length the typed-array constructor allocates for an array-like
      object whose [length] property is the given value (ToLength);
      [None] when the allocation throws RangeError. *)
  toArrayLikeLength : Json -> option nat;
  (** faceapi.euclideanDistance: it throws when the two arrays differ in
      length, and its result may be NaN. *)
  euclideanDistance : Float32Array -> Float32Array -> Exn Number
}.

Section Float32ArrayConstructor.
Context {P : Platform}.

Definition allocate (v : Json) : Exn nat :=
  match toIndex v with
  | Some len => Ok len
  | None => Throw RangeError
  end.

Definition allocateArrayLike (length : Json) : Exn nat :=
  match toArrayLikeLength length with
  | Some len => Ok len
  | None => Throw RangeError
  end.

(** [new Float32Array(arg)]: an absent or null argument gives the empty
    array, an array is converted element by element, an object is read as
    an array-like, and any other value is a length of zeros. *)
Definition newFloat32Array (arg : JsValue) : Exn Float32Array :=
  match arg with
  | None => Ok []
  | Some JNull => Ok []
  | Some (JBool b) => Ok (if b then [Finite 0] else [])
  | Some (JArr l) => Ok (map (fun e => toFloat32 (Some e)) l)
  | Some (JObj o) =>
      bind (match getProp "length" o with
            | None => Ok 0%nat
            | Some len => allocateArrayLike len
            end)
           (fun len =>
              Ok (map (fun i => toFloat32 (getProp (decimal i) o))
                      (seq 0 len)))
  | Some v => bind (allocate v) (fun len => Ok (repeat (Finite 0) len))
  end.

End Float32ArrayConstructor.

(** A gallery entry: a JavaScript object whose [descriptor] is a
    Float32Array; [props] are its other own properties ([id], [name],
    [image] and whatever else an imported object carried). *)
Record Face : Type := {
  props : list (string * Json);
  descriptor : Float32Array
}.

Definition face_id (f : Face) : JsValue := getProp "id" (props f).
Definition face_name (f : Face) : JsValue := getProp "name" (props f).
Definition face_image (f : Face) : JsValue := getProp "image" (props f).

End Js.

(* ===================================================================== *)
(** ** The VideoStream component *)
(* ===================================================================== *)

Module VideoStream.
Import Js.

Record Box : Type := { x : Q; y : Q; width : Q; height : Q }.

(** One element of the array [detectAllFaces] resolves to: the box of
    [detection.detection] and [detection.descriptor]. *)
Record Detection : Type := {
  box : Box;
  det_descriptor : Float32Array
}.

Record Stats : Type := {
  fps : nat;
  facesDetected : nat;
  facesBlurred : nat
}.

(** The literal [0.6] of the distance test. *)
Definition MATCH_THRESHOLD : Q := (6 # 10)%Q.

(** The literal [200] of the inter-poll [setTimeout], in milliseconds. *)
Definition POLL_INTERVAL : nat := 200.

Definition Qltb (a b : Q) : bool := negb (Qle_bool b a).

Inductive DrawOp : Type :=
| DrawImage (w h : nat)
| Save
| FillStyle (style : string)
| FillRect (b : Box)
| Restore
| StrokeStyle (style : string)
| LineWidth (px : nat)
| StrokeRect (b : Box).

Record VideoElement : Type := {
  src : string;
  srcObject : option nat;
  crossOrigin : string;
  paused : bool;
  ended : bool
}.

Record Canvas : Type := {
  canvas_width : nat;
  canvas_height : nat;
  (** whether [getContext('2d')] returns a context *)
  context2d : bool
}.

(** Props, refs and state of the component. *)
Record Component : Type := {
  (* props *)
  streamUrl : string;
  faceDatabase : list Face;
  autoStart : bool;
  (* refs *)
  videoRef : option VideoElement;
  canvasRef : option Canvas;
  streamRef : option nat;
  lastDetectionsRef : list Detection;
  (* state *)
  isPlaying : bool;
  modelsLoaded : bool;
  error : string;
  detectionStats : Stats
}.

Definition set_error (msg : string) (c : Component) : Component :=
  {| streamUrl := streamUrl c; faceDatabase := faceDatabase c;
     autoStart := autoStart c; videoRef := videoRef c;
     canvasRef := canvasRef c; streamRef := streamRef c;
     lastDetectionsRef := lastDetectionsRef c; isPlaying := isPlaying c;
     modelsLoaded := modelsLoaded c; error := msg;
     detectionStats := detectionStats c |}.

Definition set_isPlaying (b : bool) (c : Component) : Component :=
  {| streamUrl := streamUrl c; faceDatabase := faceDatabase c;
     autoStart := autoStart c; videoRef := videoRef c;
     canvasRef := canvasRef c; streamRef := streamRef c;
     lastDetectionsRef := lastDetectionsRef c; isPlaying := b;
     modelsLoaded := modelsLoaded c; error := error c;
     detectionStats := detectionStats c |}.

Definition set_videoRef (v : option VideoElement) (c : Component) : Component :=
  {| streamUrl := streamUrl c; faceDatabase := faceDatabase c;
     autoStart := autoStart c; videoRef := v;
     canvasRef := canvasRef c; streamRef := streamRef c;
     lastDetectionsRef := lastDetectionsRef c; isPlaying := isPlaying c;
     modelsLoaded := modelsLoaded c; error := error c;
     detectionStats := detectionStats c |}.

Definition set_streamRef (s : option nat) (c : Component) : Component :=
  {| streamUrl := streamUrl c; faceDatabase := faceDatabase c;
     autoStart := autoStart c; videoRef := videoRef c;
     canvasRef := canvasRef c; streamRef := s;
     lastDetectionsRef := lastDetectionsRef c; isPlaying := isPlaying c;
     modelsLoaded := modelsLoaded c; error := error c;
     detectionStats := detectionStats c |}.

Definition set_detectionStats (ds : Stats) (c : Component) : Component :=
  {| streamUrl := streamUrl c; faceDatabase := faceDatabase c;
     autoStart := autoStart c; videoRef := videoRef c;
     canvasRef := canvasRef c; streamRef := streamRef c;
     lastDetectionsRef := lastDetectionsRef c; isPlaying := isPlaying c;
     modelsLoaded := modelsLoaded c; error := error c;
     detectionStats := ds |}.

(* --------------------------------------------------------------------- *)
(** *** processFrame: the matcher and the overlay *)

Section Render.
Context {P : Platform}.

(** [distance < 0.6] on a number: false for NaN. *)
Definition lessThan (n : Number) (t : Q) : bool :=
  match n with
  | Num q => Qltb q t
  | NumNaN => false
  | NumInf negative => negative
  end.

(** The inner [for (const knownFace of faceDatabase)] with its [break].
    Returns [shouldBlur], or the exception [euclideanDistance] threw, and
    the distances that were computed, in order. *)
Fixpoint scanDatabase (faceDescriptor : Float32Array) (db : list Face)
  : Exn bool * list Number :=
  match db with
  | [] => (Ok false, [])
  | knownFace :: rest =>
      match euclideanDistance faceDescriptor (descriptor knownFace) with
      | Throw e => (Throw e, [])
      | Ok distance =>
          if lessThan distance MATCH_THRESHOLD then (Ok true, [distance])
          else let (found, computed) := scanDatabase faceDescriptor rest in
               (found, distance :: computed)
      end
  end.

(** [let shouldBlur = false; if (faceDatabase.length > 0) { ... }]. *)
Definition matchDetection (detection : Detection) (db : list Face)
  : Exn bool * list Number :=
  if (0 <? List.length db)%nat
  then scanDatabase (det_descriptor detection) db
  else (Ok false, []).

Definition shouldBlur (detection : Detection) (db : list Face) : Exn bool :=
  fst (matchDetection detection db).

Definition distancesComputed (detection : Detection) (db : list Face)
  : list Number :=
  snd (matchDetection detection db).

(** The scan for the detection ends with the verdict true. *)
Definition verdict (detection : Detection) (db : list Face) : bool :=
  match shouldBlur detection db with
  | Ok b => b
  | Throw _ => false
  end.

(** The scan for the detection ends with a verdict. *)
Definition scanCompletes (detection : Detection) (db : list Face) : bool :=
  match shouldBlur detection db with
  | Ok _ => true
  | Throw _ => false
  end.

(** The detections of the cached snapshot whose verdict is true. *)
Definition matched (c : Component) : list Detection :=
  filter (fun d => verdict d (faceDatabase c)) (lastDetectionsRef c).

(** The canvas calls made for one detection. *)
Definition drawDetection (b : Box) (blur : bool) : list DrawOp :=
  (if blur
   then [Save; FillStyle "rgba(255,0,0,0.5)"; FillRect b; Restore]
   else [])
  ++ [StrokeStyle (if blur then "#ef4444" else "#22c55e");
      LineWidth 2; StrokeRect b].

(** [for (const detection of detections)], threading [blurredCount]:
    the canvas calls made, and the final count or the exception that
    ended the loop. *)
Fixpoint drawDetections (detections : list Detection) (db : list Face)
  (blurredCount : nat) : list DrawOp * Exn nat :=
  match detections with
  | [] => ([], Ok blurredCount)
  | detection :: rest =>
      match shouldBlur detection db with
      | Throw e => ([], Throw e)
      | Ok blur =>
          let (ops, count) :=
            drawDetections rest db
              (if blur then S blurredCount else blurredCount) in
          (drawDetection (box detection) blur ++ ops, count)
      end
  end.

(** What one call of [processFrame] does: the canvas calls, the
    functional update handed to [setDetectionStats], if it is reached,
    and the exception the call ended with, if it threw. *)
Record Frame : Type := {
  drawn : list DrawOp;
  statsUpdate : option (Stats -> Stats);
  thrown : option Error
}.

Definition noFrame : Frame :=
  {| drawn := []; statsUpdate := None; thrown := None |}.

(** Lines 84 to 114: the video frame, the overlay, the stats. *)
Definition drawFrame (canvas : Canvas) (detections : list Detection)
  (db : list Face) : Frame :=
  let (ops, count) := drawDetections detections db 0 in
  match count with
  | Ok blurredCount =>
      {| drawn := DrawImage (canvas_width canvas) (canvas_height canvas) :: ops;
         statsUpdate :=
           Some (fun ds => {| fps := fps ds;
                              facesBlurred := blurredCount;
                              facesDetected := List.length detections |});
         thrown := None |}
  | Throw e =>
      {| drawn := DrawImage (canvas_width canvas) (canvas_height canvas) :: ops;
         statsUpdate := None;
         thrown := Some e |}
  end.

Definition processFrame (c : Component) : Frame :=
  match videoRef c, canvasRef c with
  | Some video, Some canvas =>
      if negb (modelsLoaded c) then noFrame
      else if negb (context2d canvas) then noFrame
      else drawFrame canvas (lastDetectionsRef c) (faceDatabase c)
  | _, _ => noFrame
  end.

(** The guards of [processFrame] all pass. *)
Definition renderReady (c : Component) : bool :=
  match videoRef c, canvasRef c with
  | Some _, Some canvas => modelsLoaded c && context2d canvas
  | _, _ => false
  end.

(** No distance computation of the frame throws. *)
Definition scansComplete (c : Component) : bool :=
  forallb (fun d => scanCompletes d (faceDatabase c)) (lastDetectionsRef c).

(** React applies the update to the current stats. *)
Definition commitFrame (f : Frame) (c : Component) : Component :=
  match statsUpdate f with
  | Some update => set_detectionStats (update (detectionStats c)) c
  | None => c
  end.

(** The animation effect: [animate] runs, and [onProcessingChange(true)]
    is reported, only when [isPlaying && modelsLoaded]. *)
Definition renderLoopActive (c : Component) : bool :=
  isPlaying c && modelsLoaded c.


End Render.

Definition isOverlay (op : DrawOp) : bool :=
  match op with
  | DrawImage _ _ => false
  | _ => true
  end.

(* --------------------------------------------------------------------- *)
(** *** startStream, stopStream and what invokes them *)

(** How the browser answers the awaited calls of one [startStream]:
    [play()] resolves ([None]) or rejects with a message, and
    [getUserMedia] resolves to a stream or rejects with a message. *)
Record StartOutcome : Type := {
  play : option string;
  getUserMedia : nat + string
}.

Definition startFailure (message : string) : string :=
  "Failed to start stream: " ++ message.

Definition playing (v : VideoElement) : VideoElement :=
  {| src := src v; srcObject := srcObject v; crossOrigin := crossOrigin v;
     paused := false; ended := false |}.

Definition startStream (env : StartOutcome) (c : Component) : Component :=
  if String.eqb (streamUrl c) EmptyString
  then set_error "Please enter a stream URL" c
  else
    let c := set_error EmptyString c in
    if String.prefix "http" (streamUrl c) then
      match videoRef c with
      | Some v =>
          let v := {| src := streamUrl c; srcObject := srcObject v;
                      crossOrigin := "anonymous";
                      paused := paused v; ended := ended v |} in
          match play env with
          | None => set_isPlaying true (set_videoRef (Some (playing v)) c)
          | Some message => set_error (startFailure message) (set_videoRef (Some v) c)
          end
      | None => c
      end
    else
      match getUserMedia env with
      | inr message => set_error (startFailure message) c
      | inl stream =>
          match videoRef c with
          | Some v =>
              let v := {| src := src v; srcObject := Some stream;
                          crossOrigin := crossOrigin v;
                          paused := paused v; ended := ended v |} in
              match play env with
              | None =>
                  set_isPlaying true
                    (set_streamRef (Some stream) (set_videoRef (Some (playing v)) c))
              | Some message =>
                  set_error (startFailure message) (set_videoRef (Some v) c)
              end
          | None => c
          end
      end.

Definition stopStream (c : Component) : Component :=
  let c :=
    match videoRef c with
    | Some v =>
        set_videoRef (Some {| src := EmptyString; srcObject := srcObject v;
                              crossOrigin := crossOrigin v;
                              paused := true; ended := ended v |}) c
    | None => c
    end in
  set_isPlaying false (set_streamRef None c).

(** The Start/Stop button: [disabled={!modelsLoaded}], and
    [onClick={isPlaying ? stopStream : startStream}]. A disabled button
    dispatches no click. *)
Definition clickStartStop (env : StartOutcome) (c : Component) : Component :=
  if negb (modelsLoaded c) then c
  else if isPlaying c then stopStream c
  else startStream env c.

(** The auto-start effect. *)
Definition autoStartEffect (env : StartOutcome) (c : Component) : Component :=
  if autoStart c && negb (isPlaying c) && modelsLoaded c
  then startStream env c
  else c.

End VideoStream.

(* ===================================================================== *)
(** ** The detection loop *)
(* ===================================================================== *)

(** One run of [detectLoop], as the transition system of its awaits. The
    code between two awaits runs to completion; between them the browser
    may let time pass, settle the pending promise, run the effect's
    cleanup or change the video element. *)
Module DetectLoop.
Import Js VideoStream.

(** Where the run is suspended. *)
Inductive Pc : Type :=
| AwaitDetect                 (* await detectAllFaces(...)... *)
| AwaitTimer (due : nat)      (* await new Promise(res => setTimeout(res, 200)) *)
| Returned                    (* the while loop was left *)
| Rejected.                   (* an awaited promise rejected: the run is over *)

Inductive Action : Type :=
| CallDetect
| Publish (detections : list Detection)
| Failure
| SetTimeout (ms : nat).

Record Loop : Type := {
  pc : Pc;
  stopped : bool;                        (* let stopped *)
  video : option VideoElement;           (* videoRef.current *)
  lastDetections : list Detection;       (* lastDetectionsRef.current *)
  clock : nat;                           (* milliseconds *)
  log : list (nat * Action)              (* what the run did, and when *)
}.

Inductive Event : Type :=
| Elapse (ms : nat)
| DetectResolves (detections : list Detection)
| DetectRejects
| TimerFires
| Cleanup
| VideoChanges (v : option VideoElement).

(** [videoRef.current && !videoRef.current.paused && !videoRef.current.ended] *)
Definition videoLive (v : option VideoElement) : bool :=
  match v with
  | Some e => negb (paused e) && negb (ended e)
  | None => false
  end.

Definition suspend (l : Loop) (at_ : Pc) (did : list Action) : Loop :=
  {| pc := at_; stopped := stopped l; video := video l;
     lastDetections := lastDetections l; clock := clock l;
     log := log l ++ map (fun a => (clock l, a)) did |}.

(** From the loop condition to the next await. *)
Definition loopHead (l : Loop) : Loop :=
  if stopped l then suspend l Returned []
  else if videoLive (video l) then suspend l AwaitDetect [CallDetect]
  else suspend l (AwaitTimer (clock l + POLL_INTERVAL)) [SetTimeout POLL_INTERVAL].

(** [lastDetectionsRef.current = detections], then the timer is set. *)
Definition publish (detections : list Detection) (l : Loop) : Loop :=
  suspend {| pc := pc l; stopped := stopped l; video := video l;
             lastDetections := detections; clock := clock l; log := log l |}
          (AwaitTimer (clock l + POLL_INTERVAL))
          [Publish detections; SetTimeout POLL_INTERVAL].

Definition step (e : Event) (l : Loop) : Loop :=
  match e with
  | Elapse ms =>
      {| pc := pc l; stopped := stopped l; video := video l;
         lastDetections := lastDetections l; clock := clock l + ms;
         log := log l |}
  | Cleanup =>
      {| pc := pc l; stopped := true; video := video l;
         lastDetections := lastDetections l; clock := clock l;
         log := log l |}
  | VideoChanges v =>
      {| pc := pc l; stopped := stopped l; video := v;
         lastDetections := lastDetections l; clock := clock l;
         log := log l |}
  | DetectResolves detections =>
      match pc l with
      | AwaitDetect => publish detections l
      | _ => l
      end
  | DetectRejects =>
      match pc l with
      | AwaitDetect => suspend l Rejected [Failure]
      | _ => l
      end
  | TimerFires =>
      match pc l with
      | AwaitTimer due => if (due <=? clock l)%nat then loopHead l else l
      | _ => l
      end
  end.

Definition run (events : list Event) (l : Loop) : Loop :=
  fold_left (fun l e => step e l) events l.

(** The effect body: no loop without models or without a video element;
    otherwise [detectLoop()] runs up to its first await. *)
Definition detectEffect (modelsLoaded : bool) (video : option VideoElement)
  (lastDetections : list Detection) (clock : nat) : option Loop :=
  match video with
  | Some _ =>
      if negb modelsLoaded then None
      else Some (loopHead {| pc := Returned; stopped := false; video := video;
                             lastDetections := lastDetections; clock := clock;
                             log := [] |})
  | None => None
  end.

Definition isCall (a : nat * Action) : bool :=
  match snd a with CallDetect => true | _ => false end.

Definition isSettle (a : nat * Action) : bool :=
  match snd a with Publish _ | Failure => true | _ => false end.

(** Extraction calls made and not yet settled. *)
Definition outstanding (log : list (nat * Action)) : nat :=
  List.length (filter isCall log) - List.length (filter isSettle log).

Definition calls (log : list (nat * Action)) : nat :=
  List.length (filter isCall log).

(** Every extraction call comes at least the poll interval after every
    earlier settled extraction. *)
Fixpoint paced (log : list (nat * Action)) : Prop :=
  match log with
  | [] => True
  | a :: rest =>
      (isSettle a = true ->
       Forall (fun b => isCall b = true -> fst a + POLL_INTERVAL <= fst b) rest)
      /\ paced rest
  end.

(** What holds of a run at every moment. *)
Record Inv (l : Loop) : Prop := {
  inv_past : Forall (fun a => fst a <= clock l) (log l);
  inv_paced : paced (log l);
  inv_count :
    List.length (filter isCall (log l))
    = List.length (filter isSettle (log l))
      + match pc l with AwaitDetect => 1 | _ => 0 end;
  inv_due :
    match pc l with
    | AwaitTimer due =>
        Forall (fun a => isSettle a = true -> fst a + POLL_INTERVAL <= due) (log l)
    | _ => True
    end
}.

End DetectLoop.

(* ===================================================================== *)
(** ** The FaceManager component *)
(* ===================================================================== *)

Module FaceManager.
Import Js.

Record File : Type := {
  file_type : string;
  file_name : string;
  (** the text [readAsText] yields *)
  file_text : string
}.

(** What enrollment takes from the browser and from face-api.js. *)
Class ImagePlatform : Type := {
  Raster : Type;
  (** the image the file decodes to; [None] when [img.onload] never fires *)
  loadImage : File -> option Raster;
  (** whether [canvas.getContext('2d')] gave a context *)
  getContext2d : File -> bool;
  (** detectSingleFace(...).withFaceLandmarks().withFaceDescriptor() *)
  detectSingleFace : Raster -> Exn (option Float32Array);
  (** canvas.toDataURL('image/jpeg', 0.8) *)
  toDataURL : Raster -> string
}.

(** An awaited promise settles with a value or never does. *)
Inductive Promise (A : Type) : Type :=
| Resolved (a : A)
| Pending.
Arguments Resolved {A} a.
Arguments Pending {A}.

Record Manager : Type := {
  faceDatabase : list Face;
  processing : bool;
  error : string
}.

(** [file.name.split('.')[0]] *)
Fixpoint beforeDot (s : string) : string :=
  match s with
  | EmptyString => EmptyString
  | String c rest =>
      if Ascii.eqb c "."%char then EmptyString else String c (beforeDot rest)
  end.

(** The object literal pushed onto [newFaces]. *)
Definition newFace (id name : string) (d : Float32Array) (image : string) : Face :=
  {| props := [("id"%string, JStr id); ("name"%string, JStr name);
               ("image"%string, JStr image)];
     descriptor := d |}.

Section Enrollment.
Context {I : ImagePlatform}.

Definition processImage (file : File) (name : string)
  : Promise (option (Float32Array * string)) :=
  match loadImage file with
  | None => Pending
  | Some img =>
      if negb (getContext2d file) then Resolved None
      else match detectSingleFace img with
           | Ok (Some d) => Resolved (Some (d, toDataURL img))
           | Ok None => Resolved None
           | Throw _ => Resolved None
           end
  end.

(** The [for] loop of [handleFileSelect] from index [i] on; [now i] is
    what [Date.now()] returns when evaluated in iteration [i]. *)
Fixpoint enrollLoop (now : nat -> Z) (i : nat) (files : list File)
  (newFaces : list Face) : Promise (list Face) :=
  match files with
  | [] => Resolved newFaces
  | file :: rest =>
      if negb (String.prefix "image/" (file_type file))
      then enrollLoop now (S i) rest newFaces
      else
        let name := beforeDot (file_name file) in
        match processImage file name with
        | Pending => Pending
        | Resolved None => enrollLoop now (S i) rest newFaces
        | Resolved (Some (d, image)) =>
            enrollLoop now (S i) rest
              (newFaces ++ [newFace (decimalZ (now i + Z.of_nat i)) name d image])
        end
  end.

Definition noFacesDetected : string := "No faces detected in the uploaded images".

Definition handleFileSelect (now : nat -> Z) (files : list File) (m : Manager)
  : Promise Manager :=
  match enrollLoop now 0 files [] with
  | Pending => Pending
  | Resolved [] =>
      Resolved {| faceDatabase := faceDatabase m; processing := false;
                  error := noFacesDetected |}
  | Resolved newFaces =>
      Resolved {| faceDatabase := faceDatabase m ++ newFaces;
                  processing := false; error := EmptyString |}
  end.

(** A file the loop hands to [processImage]. *)
Definition isImage (file : File) : bool :=
  String.prefix "image/" (file_type file).

(** The image of the file decodes, so that [processImage] settles. *)
Definition decodes (file : File) : bool :=
  match loadImage file with
  | Some _ => true
  | None => false
  end.

(** [processImage] resolves with a result for this file. *)
Definition succeeds (file : File) : bool :=
  match processImage file (beforeDot (file_name file)) with
  | Resolved (Some _) => true
  | _ => false
  end.

(** What iteration [i] appends to [newFaces] when it settles. *)
Definition enrolledAt (now : nat -> Z) (i : nat) (file : File) : list Face :=
  if isImage file then
    match processImage file (beforeDot (file_name file)) with
    | Resolved (Some (d, image)) =>
        [newFace (decimalZ (now i + Z.of_nat i)) (beforeDot (file_name file)) d image]
    | _ => []
    end
  else [].

(** What the iterations from [i] on append, when they all settle. *)
Fixpoint enrolled (now : nat -> Z) (i : nat) (files : list File) : list Face :=
  match files with
  | [] => []
  | file :: rest => enrolledAt now i file ++ enrolled now (S i) rest
  end.

End Enrollment.

(** [face.id !== id] for the string [id]. *)
Definition idDiffers (id : string) (face : Face) : bool :=
  match face_id face with
  | Some (JStr s) => negb (String.eqb s id)
  | _ => true
  end.

Definition removeFace (id : string) (m : Manager) : Manager :=
  {| faceDatabase := filter (idDiffers id) (faceDatabase m);
     processing := processing m; error := error m |}.

Definition invalidFormat : string := "Invalid database file format".

(** The [descriptor] property the import reads from an element. *)
Definition descriptorOf (face : Json) : JsValue :=
  match face with
  | JObj o => getProp "descriptor" o
  | _ => None
  end.

Section ImportDatabase.
Context {P : Platform}.

(** [face => ({...face, descriptor: new Float32Array(face.descriptor)})] *)
Definition fixFace (face : Json) : Exn Face :=
  bind (readProp face "descriptor") (fun d =>
  bind (newFloat32Array d) (fun arr =>
  Ok {| props := deleteProp "descriptor" (ownProps face); descriptor := arr |})).

(** [reader.onload] for the chosen file; nothing happens without a file. *)
Definition importDatabase (file : option File) (m : Manager) : Manager :=
  match file with
  | None => m
  | Some f =>
      match JSON_parse (file_text f) with
      | None =>
          {| faceDatabase := faceDatabase m; processing := processing m;
             error := invalidFormat |}
      | Some (JArr data) =>
          match mapM fixFace data with
          | Ok fixed =>
              {| faceDatabase := fixed; processing := processing m;
                 error := error m |}
          | Throw _ =>
              {| faceDatabase := faceDatabase m; processing := processing m;
                 error := invalidFormat |}
          end
      | Some _ => m
      end
  end.

(** The element is not null and the typed-array constructor does not
    throw on its descriptor. *)
Definition convertible (face : Json) : bool :=
  match face with
  | JNull => false
  | _ => match newFloat32Array (descriptorOf face) with
         | Ok _ => true
         | Throw _ => false
         end
  end.

(** How an imported entry relates to the element it was made from. *)
Definition copied (face : Json) (entry : Face) : Prop :=
  newFloat32Array (descriptorOf face) = Ok (descriptor entry)
  /\ props entry = deleteProp "descriptor" (ownProps face)
  /\ (forall key, key <> "descriptor"%string ->
                  getProp key (props entry) = getProp key (ownProps face))
  /\ (descriptorOf face = None -> descriptor entry = [])
  /\ (forall l, descriptorOf face = Some (JArr l) ->
                List.length (descriptor entry) = List.length l).

End ImportDatabase.

Definition ids (db : list Face) : list JsValue := map face_id db.

(** The id iteration [j] of a batch gives its new entry. *)
Definition idAt (now : nat -> Z) (j : nat) : JsValue :=
  Some (JStr (decimalZ (now j + Z.of_nat j))).

End FaceManager.

(* ===================================================================== *)
(** ** The matcher as the specification words it *)
(* ===================================================================== *)

Module Spec.
Import Js VideoStream.

Section Matcher.
Context {P : Platform}.

(** The distance from [d] to the gallery entry [k]. *)
Definition distanceTo (d : Float32Array) (k : Face) : Exn Number :=
  euclideanDistance d (descriptor k).

(** The value of a distance; a call that throws has none. *)
Definition valueOf (r : Exn Number) : Number :=
  match r with
  | Ok n => n
  | Throw _ => NumNaN
  end.

(** The smaller of two numbers; like [Math.min], NaN if either is. *)
Definition numMin (a b : Number) : Number :=
  match a, b with
  | NumNaN, _ | _, NumNaN => NumNaN
  | NumInf true, _ => a
  | _, NumInf true => b
  | NumInf false, _ => b
  | _, NumInf false => a
  | Num x, Num y => Num (Qmin x y)
  end.

(** min over g in Gallery of euclideanDistance(d.embedding, g.embedding),
    for the gallery [g :: gs]. *)
Definition minDistance (d : Float32Array) (g : Face) (gs : list Face) : Number :=
  fold_left numMin (map (fun k => valueOf (distanceTo d k)) gs)
            (valueOf (distanceTo d g)).

(** The distance from [d] to [k] is a number: the call does not throw
    and its result is not NaN. *)
Definition comparable (d : Float32Array) (k : Face) : bool :=
  match distanceTo d k with
  | Ok (Num _) | Ok (NumInf _) => true
  | Ok NumNaN | Throw _ => false
  end.

(** The gallery entry [k] is closer to [d] than the threshold. *)
Definition near (d : Float32Array) (k : Face) : bool :=
  match distanceTo d k with
  | Ok n => lessThan n MATCH_THRESHOLD
  | Throw _ => false
  end.

(** The distance from [d] to [k] was computed and is not below the
    threshold. *)
Definition far (d : Float32Array) (k : Face) : bool :=
  match distanceTo d k with
  | Ok n => negb (lessThan n MATCH_THRESHOLD)
  | Throw _ => false
  end.

(** isMatch = (Gallery non-empty) AND (minDistance < MATCH_THRESHOLD). *)
Definition isMatch (d : Detection) (gallery : list Face) : bool :=
  match gallery with
  | [] => false
  | g :: gs => lessThan (minDistance (det_descriptor d) g gs) MATCH_THRESHOLD
  end.

End Matcher.
End Spec.

(* ===================================================================== *)
(** ** The rest of VideoStream, and the App that hosts the components *)
(* ===================================================================== *)

Module Controls.
Import Js VideoStream.

Definition set_modelsLoaded (b : bool) (c : Component) : Component :=
  {| streamUrl := streamUrl c; faceDatabase := faceDatabase c;
     autoStart := autoStart c; videoRef := videoRef c;
     canvasRef := canvasRef c; streamRef := streamRef c;
     lastDetectionsRef := lastDetectionsRef c; isPlaying := isPlaying c;
     modelsLoaded := b; error := error c;
     detectionStats := detectionStats c |}.

Definition set_canvasRef (cv : option Canvas) (c : Component) : Component :=
  {| streamUrl := streamUrl c; faceDatabase := faceDatabase c;
     autoStart := autoStart c; videoRef := videoRef c;
     canvasRef := cv; streamRef := streamRef c;
     lastDetectionsRef := lastDetectionsRef c; isPlaying := isPlaying c;
     modelsLoaded := modelsLoaded c; error := error c;
     detectionStats := detectionStats c |}.

Definition modelsFailed : string := "Failed to load face detection models".

(** The model-loading effect, once [Promise.all] of the three
    [loadFromUri] calls has settled: [loaded] says whether it resolved. *)
Definition loadModels (loaded : bool) (c : Component) : Component :=
  if loaded then set_modelsLoaded true c else set_error modelsFailed c.



(** [handleVideoLoadedMetadata], for a video of the given intrinsic size. *)
Definition handleVideoLoadedMetadata (videoWidth videoHeight : nat)
  (c : Component) : Component :=
  match videoRef c, canvasRef c with
  | Some _, Some cv =>
      set_canvasRef (Some {| canvas_width := videoWidth;
                             canvas_height := videoHeight;
                             context2d := context2d cv |}) c
  | _, _ => c
  end.

(** What the user and React do to the session: a click on the
    Start/Stop button, or a run of the auto-start effect, each with the
    browser's answers should [startStream] be reached. *)
Inductive UiAction : Type :=
| Click (env : StartOutcome)
| AutoStart (env : StartOutcome).

Definition act (a : UiAction) (c : Component) : Component :=
  match a with
  | Click env => clickStartStop env c
  | AutoStart env => autoStartEffect env c
  end.

Definition actAll (actions : list UiAction) (c : Component) : Component :=
  fold_left (fun c a => act a c) actions c.

(** The stream whose tracks [stopStream] stops. *)
Definition releasedByStop (c : Component) : option nat := streamRef c.

(** The state of [App], but for [activeTab], which selects the panel
    that is shown. *)
Record App : Type := {
  app_streamUrl : string;
  app_isProcessing : bool;
  app_blurIntensity : nat;
  app_detectionConfidence : Q;
  app_faceDatabase : list Face
}.

(** ControlPanel's [handleWebcamAccess]: when [getUserMedia] resolves the
    URL becomes [webcam]; when it rejects nothing changes. *)
Definition handleWebcamAccess (granted : bool) (a : App) : App :=
  if granted
  then {| app_streamUrl := "webcam"; app_isProcessing := app_isProcessing a;
          app_blurIntensity := app_blurIntensity a;
          app_detectionConfidence := app_detectionConfidence a;
          app_faceDatabase := app_faceDatabase a |}
  else a.

(** The props [App] hands to [VideoStream] on a render. *)
Definition withProps (a : App) (c : Component) : Component :=
  {| streamUrl := app_streamUrl a; faceDatabase := app_faceDatabase a;
     autoStart := String.eqb (app_streamUrl a) "webcam";
     videoRef := videoRef c; canvasRef := canvasRef c;
     streamRef := streamRef c; lastDetectionsRef := lastDetectionsRef c;
     isPlaying := isPlaying c; modelsLoaded := modelsLoaded c;
     error := error c; detectionStats := detectionStats c |}.

(** [onFaceDatabaseChange={setFaceDatabase}]: the gallery FaceManager
    hands back becomes App's. *)
Definition setFaceDatabase (db : list Face) (a : App) : App :=
  {| app_streamUrl := app_streamUrl a; app_isProcessing := app_isProcessing a;
     app_blurIntensity := app_blurIntensity a;
     app_detectionConfidence := app_detectionConfidence a;
     app_faceDatabase := db |}.



Section Lifecycle.
Context {P : Platform}.



End Lifecycle.

(** How often a kind of canvas call occurs. *)
Definition isFillRect (op : DrawOp) : bool :=
  match op with FillRect _ => true | _ => false end.

Definition isStrokeRect (op : DrawOp) : bool :=
  match op with StrokeRect _ => true | _ => false end.

(** The box a canvas call draws, if it draws one. *)
Definition boxOf (op : DrawOp) : option Box :=
  match op with
  | FillRect b | StrokeRect b => Some b
  | _ => None
  end.

End Controls.

(** Events that leave the video element paused, ended or unmounted. *)
Module LoopEvents.
Import VideoStream DetectLoop.

Definition keepsVideoOff (e : Event) : bool :=
  match e with
  | VideoChanges v => negb (videoLive v)
  | _ => true
  end.

End LoopEvents.

(** Elements of an imported array that are neither null nor objects. *)
Module ImportShapes.
Import Js.

Definition notAnObject (face : Json) : bool :=
  match face with
  | JNull | JObj _ => false
  | _ => true
  end.

(** The entry made from an element that has no descriptor to convert. *)
Definition bare (face : Json) : Face :=
  {| props := deleteProp "descriptor" (ownProps face); descriptor := [] |}.

(** The entry without its descriptor. *)
Definition stripped (f : Face) : Face :=
  {| props := props f; descriptor := [] |}.

Definition noDot (s : string) : Prop :=
  ~ In "."%char (list_ascii_of_string s).

End ImportShapes.

(* ===================================================================== *)
(** ** exportDatabase *)
(* ===================================================================== *)

Module Exporting.
Import Js FaceManager.

(** What [JSON.stringify] writes for a Float32Array element: the number,
    or [null] for NaN and the infinities. *)
Definition float32ToJson (f : float32) : Json :=
  match f with
  | Finite q => JNum q
  | NaN | Infinite _ => JNull
  end.

(** A typed array is no array to [JSON.stringify]: it is written as an
    object whose keys are the indices. *)
Definition typedArrayToJson (a : Float32Array) : Json :=
  JObj (indexed (map float32ToJson a)).

(** The value [JSON.stringify] writes for one gallery entry. The place
    of [descriptor] among the properties is not kept by [Face]; it is
    put last. *)
Definition faceToJson (f : Face) : Json :=
  JObj (props f ++ [("descriptor"%string, typedArrayToJson (descriptor f))]).

(** The value [exportDatabase] serialises into the downloaded file. *)
Definition exported (db : list Face) : Json := JArr (map faceToJson db).

(** An entry keeps its descriptor in [descriptor] only. *)
Definition wellFormed (f : Face) : Prop :=
  getProp "descriptor" (props f) = None.

End Exporting.

(* ===================================================================== *)
(** ** A concrete platform and concrete inputs, for evaluation *)
(* ===================================================================== *)

Module Demo.
Import Js VideoStream.

Definition value (f : float32) : Q :=
  match f with
  | Finite q => q
  | _ => 0%Q
  end.

(** Sum of the absolute differences: on descriptors that differ in one
    coordinate at most it is their Euclidean distance. *)
Fixpoint taxicab (a b : Float32Array) : Q :=
  match a, b with
  | u :: a', v :: b' => (Qabs (value u - value v) + taxicab a' b')%Q
  | _, _ => 0%Q
  end.

Definition quoted (s : string) : string :=
  String "034"%char (s ++ String "034"%char EmptyString).

(** The text of a one-entry database: id 7, descriptor [1, 0]. *)
Definition database7 : string :=
  "[{" ++ quoted "id" ++ ":" ++ quoted "7" ++ ","
       ++ quoted "descriptor" ++ ":[1,0]}]".

(** A parser that knows four documents. *)
Definition parse (text : string) : option Json :=
  if String.eqb text "[null]" then Some (JArr [JNull])
  else if String.eqb text "{}" then Some (JObj [])
  else if String.eqb text "42" then Some (JNum 42)
  else if String.eqb text database7
  then Some (JArr [JObj [("id"%string, JStr "7");
                         ("descriptor"%string, JArr [JNum 1; JNum 0])]])
  else None.

(** The distance of face-api.js but for the norm: it throws when the
    lengths differ. *)
Definition distance (a b : Float32Array) : Exn Number :=
  if (List.length a =? List.length b)%nat
  then Ok (Num (taxicab a b))
  else Throw (OtherError "euclideanDistance: arr1.length !== arr2.length").

Definition indexOf (v : Json) : option nat :=
  match v with
  | JNum q => if Qle_bool 0 q then Some (Z.to_nat (Qfloor q)) else None
  | _ => Some 0
  end.

Definition lengthOf (v : Json) : option nat :=
  match v with
  | JNum q => Some (Z.to_nat (Qfloor q))
  | _ => Some 0
  end.

#[local] Instance platform : Platform := {|
  JSON_parse := parse;
  toFloat32 := fun v => match v with
                        | Some (JNum q) => Finite q
                        | Some JNull => Finite 0
                        | _ => NaN
                        end;
  toIndex := indexOf;
  toArrayLikeLength := lengthOf;
  euclideanDistance := distance
|}.

Definition known : Face :=
  {| props := [("id"%string, JStr "1")]; descriptor := [Finite 1; Finite 0] |}.

Definition boxA : Box := {| x := 10; y := 20; width := 30; height := 40 |}.
Definition boxB : Box := {| x := 50; y := 60; width := 70; height := 80 |}.

(** A detection one hundredth away from [known], and one far from it. *)
Definition seen : Detection :=
  {| box := boxA; det_descriptor := [Finite (101 # 100); Finite 0] |}.
Definition stranger : Detection :=
  {| box := boxB; det_descriptor := [Finite 0; Finite 1] |}.

Definition video0 : VideoElement :=
  {| src := "http://camera/stream"; srcObject := None; crossOrigin := "anonymous";
     paused := false; ended := false |}.

Definition canvas0 : Canvas :=
  {| canvas_width := 640; canvas_height := 480; context2d := true |}.

Definition stats0 : Stats := {| fps := 0; facesDetected := 0; facesBlurred := 0 |}.

(** A mounted, playing component with two cached detections. *)
Definition component0 : Component :=
  {| streamUrl := "http://camera/stream"; faceDatabase := [known];
     autoStart := false; videoRef := Some video0; canvasRef := Some canvas0;
     streamRef := None; lastDetectionsRef := [seen; stranger];
     isPlaying := true; modelsLoaded := true; error := EmptyString;
     detectionStats := stats0 |}.

(** The run the detection effect starts at time 0 on the playing video. *)
Definition loop0 : DetectLoop.Loop :=
  DetectLoop.loopHead
    {| DetectLoop.pc := DetectLoop.Returned; DetectLoop.stopped := false;
       DetectLoop.video := Some video0; DetectLoop.lastDetections := [];
       DetectLoop.clock := 0; DetectLoop.log := [] |}.

(** An extraction that takes 350 ms, the poll interval, a second
    extraction that takes 40 ms. *)
Definition twoPolls : list DetectLoop.Event :=
  [DetectLoop.Elapse 350; DetectLoop.DetectResolves [seen; stranger];
   DetectLoop.Elapse 200; DetectLoop.TimerFires;
   DetectLoop.Elapse 40; DetectLoop.DetectResolves [seen]].

(** The component while the models are still loading. *)
Definition loading : Component :=
  {| streamUrl := "http://camera/stream"; faceDatabase := [known];
     autoStart := true; videoRef := Some video0; canvasRef := Some canvas0;
     streamRef := None; lastDetectionsRef := [];
     isPlaying := false; modelsLoaded := false; error := EmptyString;
     detectionStats := stats0 |}.

(** A browser that plays the video and grants the camera. *)
Definition granted : StartOutcome := {| play := None; getUserMedia := inl 1 |}.

(** A browser that decodes every file but the one whose bytes read
    [corrupt], and a detector that finds a face in [portrait] only. *)
#[local] Instance images : FaceManager.ImagePlatform := {|
  FaceManager.Raster := string;
  FaceManager.loadImage := fun f =>
    if String.eqb (FaceManager.file_text f) "corrupt" then None
    else Some (FaceManager.file_text f);
  FaceManager.getContext2d := fun _ => true;
  FaceManager.detectSingleFace := fun r =>
    if String.eqb r "portrait" then Ok (Some [Finite 1; Finite 0])
    else if String.eqb r "landscape" then Ok None
    else Throw (OtherError "backend");
  FaceManager.toDataURL := fun r => String.append "data:image/jpeg;base64," r
|}.

Definition portrait (name : string) : FaceManager.File :=
  {| FaceManager.file_type := "image/jpeg"; FaceManager.file_name := name;
     FaceManager.file_text := "portrait" |}.

Definition landscape : FaceManager.File :=
  {| FaceManager.file_type := "image/png"; FaceManager.file_name := "hills.png";
     FaceManager.file_text := "landscape" |}.

Definition notes : FaceManager.File :=
  {| FaceManager.file_type := "text/plain"; FaceManager.file_name := "notes.txt";
     FaceManager.file_text := "remember" |}.

Definition document (text : string) : FaceManager.File :=
  {| FaceManager.file_type := "application/json";
     FaceManager.file_name := "face-database.json";
     FaceManager.file_text := text |}.

Definition manager0 : FaceManager.Manager :=
  {| FaceManager.faceDatabase := [known]; FaceManager.processing := false;
     FaceManager.error := EmptyString |}.

Definition empty0 : FaceManager.Manager :=
  {| FaceManager.faceDatabase := []; FaceManager.processing := false;
     FaceManager.error := EmptyString |}.

(** Three hundred files that are no images and one portrait, enrolled
    into the empty gallery when the clock reads 1000; a second portrait,
    enrolled 300 ms later. *)
Definition firstBatch : list FaceManager.File :=
  repeat notes 300 ++ [portrait "ann.jpg"].

Definition afterFirstBatch : FaceManager.Manager :=
  {| FaceManager.faceDatabase :=
       [FaceManager.newFace "1300" "ann" [Finite 1; Finite 0]
                            "data:image/jpeg;base64,portrait"];
     FaceManager.processing := false; FaceManager.error := EmptyString |}.

(** A clock that advances 40 ms per iteration. *)
Definition ticking (i : nat) : Z := (1000 + 40 * Z.of_nat i)%Z.

Definition threeFiles : list FaceManager.File :=
  [portrait "ann.jpg"; landscape; portrait "bob.jpg"].

Definition afterThree : FaceManager.Manager :=
  {| FaceManager.faceDatabase :=
       [known;
        FaceManager.newFace "1000" "ann" [Finite 1; Finite 0]
                            "data:image/jpeg;base64,portrait";
        FaceManager.newFace "1082" "bob" [Finite 1; Finite 0]
                            "data:image/jpeg;base64,portrait"];
     FaceManager.processing := false; FaceManager.error := EmptyString |}.

(** An enrolled face far from both detections. *)
Definition far : Face :=
  {| props := [("id"%string, JStr "2")]; descriptor := [Finite 3; Finite 0] |}.

(** A mounted component with loaded models, stopped, for a given URL. *)
Definition idle (url : string) : Component :=
  {| streamUrl := url; faceDatabase := [known];
     autoStart := false; videoRef := Some video0; canvasRef := Some canvas0;
     streamRef := None; lastDetectionsRef := [];
     isPlaying := false; modelsLoaded := true; error := EmptyString;
     detectionStats := stats0 |}.

(** A browser that refuses the camera, and one that grants it but
    interrupts the playback. *)
Definition refused : StartOutcome :=
  {| play := None; getUserMedia := inr "Permission denied"%string |}.

Definition interrupted : StartOutcome :=
  {| play := Some "The play() request was interrupted"%string;
     getUserMedia := inl 1 |}.

Definition app0 : Controls.App :=
  {| Controls.app_streamUrl := EmptyString; Controls.app_isProcessing := false;
     Controls.app_blurIntensity := 15;
     Controls.app_detectionConfidence := (7 # 10)%Q;
     Controls.app_faceDatabase := [] |}.

(** An entry as an import leaves it, the text [exportDatabase] writes
    for the gallery that holds it, and a platform that can read it. *)
Definition face7 : Face :=
  {| props := [("id"%string, JStr "7")]; descriptor := [Finite 1; Finite 0] |}.

Definition exported7 : string :=
  "[{" ++ quoted "id" ++ ":" ++ quoted "7" ++ "," ++ quoted "descriptor"
       ++ ":{" ++ quoted "0" ++ ":1," ++ quoted "1" ++ ":0}}]".

#[local] Instance reader : Platform := {|
  JSON_parse := fun text =>
    if String.eqb text exported7 then Some (Exporting.exported [face7])
    else if String.eqb text "[1,true]" then Some (JArr [JNum 1; JBool true])
    else parse text;
  toFloat32 := toFloat32 (Platform := platform);
  toIndex := indexOf;
  toArrayLikeLength := lengthOf;
  euclideanDistance := distance
|}.

(** A file of image type that the browser can not decode. *)
Definition corrupt : FaceManager.File :=
  {| FaceManager.file_type := "image/jpeg"; FaceManager.file_name := "torn.jpg";
     FaceManager.file_text := "corrupt" |}.

(** An image on which the detector throws. *)
Definition blank : FaceManager.File :=
  {| FaceManager.file_type := "image/png"; FaceManager.file_name := "blank.png";
     FaceManager.file_text := "blank" |}.

(** The gallery an import of the exported file leaves, and the demo
    component rendering against it. *)
Definition emptied : Face := ImportShapes.stripped face7.

Definition reimported : Component :=
  {| streamUrl := "http://camera/stream"; faceDatabase := [emptied];
     autoStart := false; videoRef := Some video0; canvasRef := Some canvas0;
     streamRef := None; lastDetectionsRef := [seen; stranger];
     isPlaying := true; modelsLoaded := true; error := EmptyString;
     detectionStats := stats0 |}.

Definition lengthMismatch : Error :=
  OtherError "euclideanDistance: arr1.length !== arr2.length".

(** A gallery of the enrolled face and a far one. *)
Definition twoKnown : FaceManager.Manager :=
  {| FaceManager.faceDatabase := [known; far]; FaceManager.processing := false;
     FaceManager.error := EmptyString |}.


(** Two portraits with a file between them that does not decode. *)
Definition tornBatch : list FaceManager.File :=
  [portrait "ann.jpg"; corrupt; portrait "bob.jpg"].

End Demo.

(* ===================================================================== *)
(** * Properties *)
(* ===================================================================== *)

Module MatcherFacts.
Import Js VideoStream Spec.

Lemma Qltb_lt (a b : Q) : Qltb a b = true <-> (a < b)%Q.
Proof.
  unfold Qltb. rewrite negb_true_iff. split.
  - intros H. apply Qnot_le_lt. intros Hle.
    apply Qle_bool_iff in Hle. congruence.
  - intros H. destruct (Qle_bool b a) eqn:E; [|reflexivity].
    apply Qle_bool_iff in E. exfalso. exact (Qlt_not_le _ _ H E).
Qed.

Lemma Qltb_min (a b t : Q) : Qltb (Qmin a b) t = Qltb a t || Qltb b t.
Proof.
  apply eq_true_iff_eq.
  rewrite orb_true_iff, !Qltb_lt. apply Q.min_lt_iff.
Qed.

Lemma lessThan_numMin (a b : Number) (t : Q) :
  a <> NumNaN -> b <> NumNaN ->
  numMin a b <> NumNaN
  /\ lessThan (numMin a b) t = lessThan a t || lessThan b t.
Proof.
  intros Ha Hb.
  destruct a as [x| |[|]], b as [y| |[|]]; try congruence; simpl;
    (split; [discriminate|]);
    rewrite ?orb_true_r, ?orb_false_r; try reflexivity.
  apply Qltb_min.
Qed.

Lemma lessThan_fold_min (l : list Number) (acc : Number) (t : Q) :
  acc <> NumNaN -> Forall (fun n => n <> NumNaN) l ->
  lessThan (fold_left numMin l acc) t
  = lessThan acc t || existsb (fun n => lessThan n t) l.
Proof.
  intros Hacc Hl. revert acc Hacc.
  induction Hl as [|n l Hn _ IH]; intros acc Hacc; simpl.
  - now rewrite orb_false_r.
  - destruct (lessThan_numMin t Hacc Hn) as [Hmin Hlt].
    rewrite (IH _ Hmin), Hlt. now rewrite orb_assoc.
Qed.

Section WithPlatform.
Context {P : Platform}.

Lemma comparable_value (d : Float32Array) (k : Face) :
  comparable d k = true ->
  exists n, distanceTo d k = Ok n /\ n <> NumNaN.
Proof.
  unfold comparable. destruct (distanceTo d k) as [[q| |neg]|e];
    try discriminate; intros _; eexists; split; try reflexivity; discriminate.
Qed.

Lemma shouldBlur_scan (d : Detection) (db : list Face) :
  shouldBlur d db = fst (scanDatabase (det_descriptor d) db)
  /\ distancesComputed d db = snd (scanDatabase (det_descriptor d) db).
Proof.
  unfold shouldBlur, distancesComputed, matchDetection.
  destruct db as [|k db]; [split; reflexivity|].
  change (0 <? List.length (k :: db)) with true. split; reflexivity.
Qed.

Lemma scanDatabase_comparable (d : Float32Array) (db : list Face) :
  forallb (comparable d) db = true ->
  fst (scanDatabase d db) = Ok (existsb (near d) db).
Proof.
  induction db as [|k db IH]; simpl; [reflexivity|].
  intros H. apply andb_true_iff in H as [Hk Hrest].
  destruct (comparable_value d k Hk) as (n & Hn & _).
  unfold near at 1. unfold distanceTo in *. rewrite Hn.
  destruct (lessThan n MATCH_THRESHOLD); simpl; [reflexivity|].
  specialize (IH Hrest).
  destruct (scanDatabase d db) as [found computed]. exact IH.
Qed.

Lemma comparable_values (d : Float32Array) (db : list Face) :
  forallb (comparable d) db = true ->
  Forall (fun n => n <> NumNaN) (map (fun k => valueOf (distanceTo d k)) db)
  /\ existsb (fun n => lessThan n MATCH_THRESHOLD)
             (map (fun k => valueOf (distanceTo d k)) db)
     = existsb (near d) db.
Proof.
  induction db as [|k db IH]; simpl; intros H; [split; [constructor|reflexivity]|].
  apply andb_true_iff in H as [Hk Hrest].
  destruct (IH Hrest) as [Hall Hex].
  destruct (comparable_value d k Hk) as (n & Hn & Hnan).
  unfold near at 1. rewrite Hn. simpl. split.
  - constructor; assumption.
  - now rewrite Hex.
Qed.

Lemma isMatch_comparable (d : Detection) (db : list Face) :
  forallb (comparable (det_descriptor d)) db = true ->
  isMatch d db = existsb (near (det_descriptor d)) db.
Proof.
  destruct db as [|k db]; [reflexivity|].
  intros H.
  destruct (comparable_values _ _ H) as [Hall Hex].
  simpl in Hall, Hex. inversion Hall as [|? ? Hk Hrest]; subst.
  unfold isMatch, minDistance.
  rewrite (lessThan_fold_min _ Hk Hrest). exact Hex.
Qed.

Lemma scanDatabase_found (d : Float32Array) (db : list Face) :
  fst (scanDatabase d db) = Ok true ->
  exists pre k post,
    db = pre ++ k :: post
    /\ Forall (fun g => far d g = true) pre
    /\ near d k = true
    /\ map Ok (snd (scanDatabase d db)) = map (distanceTo d) (pre ++ [k]).
Proof.
  induction db as [|g db IH]; simpl; [discriminate|].
  destruct (euclideanDistance d (descriptor g)) as [n|e] eqn:E;
    [|discriminate].
  destruct (lessThan n MATCH_THRESHOLD) eqn:L; simpl.
  - intros _. exists [], g, db. repeat split; auto.
    + unfold near, distanceTo. now rewrite E.
    + simpl. unfold distanceTo. now rewrite E.
  - destruct (scanDatabase d db) as [found computed]. simpl in *.
    intros H. destruct (IH H) as (pre & k & post & -> & Hpre & Hk & Hc).
    exists (g :: pre), k, post. repeat split; auto.
    + constructor; [|exact Hpre]. unfold far, distanceTo. now rewrite E, L.
    + simpl. rewrite Hc. unfold distanceTo at 2. now rewrite E.
Qed.

Lemma scanDatabase_not_found (d : Float32Array) (db : list Face) :
  fst (scanDatabase d db) = Ok false ->
  Forall (fun g => far d g = true) db
  /\ map Ok (snd (scanDatabase d db)) = map (distanceTo d) db.
Proof.
  induction db as [|g db IH]; simpl; [auto|].
  destruct (euclideanDistance d (descriptor g)) as [n|e] eqn:E;
    [|discriminate].
  destruct (lessThan n MATCH_THRESHOLD) eqn:L; simpl; [discriminate|].
  destruct (scanDatabase d db) as [found computed]. simpl in *.
  intros H. destruct (IH H) as [Hall Hc]. split.
  - constructor; [|exact Hall]. unfold far, distanceTo. now rewrite E, L.
  - rewrite Hc. unfold distanceTo at 2. now rewrite E.
Qed.

Lemma scanDatabase_thrown (d : Float32Array) (db : list Face) (e : Error) :
  fst (scanDatabase d db) = Throw e ->
  exists pre k post,
    db = pre ++ k :: post
    /\ Forall (fun g => far d g = true) pre
    /\ distanceTo d k = Throw e
    /\ map Ok (snd (scanDatabase d db)) = map (distanceTo d) pre.
Proof.
  induction db as [|g db IH]; simpl; [discriminate|].
  destruct (euclideanDistance d (descriptor g)) as [n|e'] eqn:E.
  - destruct (lessThan n MATCH_THRESHOLD) eqn:L; simpl; [discriminate|].
    destruct (scanDatabase d db) as [found computed]. simpl in *.
    intros H. destruct (IH H) as (pre & k & post & -> & Hpre & Hk & Hc).
    exists (g :: pre), k, post. repeat split; auto.
    + constructor; [|exact Hpre]. unfold far, distanceTo. now rewrite E, L.
    + simpl. rewrite Hc. unfold distanceTo at 2. now rewrite E.
  - simpl. intros [= <-]. exists [], g, db. repeat split; auto.
Qed.

Lemma near_not_far (d : Float32Array) (k : Face) :
  near d k = true -> far d k = true -> False.
Proof.
  unfold near, far. destruct (distanceTo d k) as [n|e]; [|discriminate].
  destruct (lessThan n MATCH_THRESHOLD); discriminate.
Qed.

(** C1, as the code has it. For the detections of a snapshot and a
    gallery such that every distance between them is a number (the call
    does not throw, as it does for descriptors of different lengths, and
    its result is not NaN), the verdict the code computes is the
    specification's: the gallery is non-empty and the minimum distance to
    its entries is below the threshold. With an empty gallery the verdict
    is false and no distance is computed. *)
Theorem matcher_verdict_is_min_below_threshold :
  forall (snapshot : list Detection) (gallery : list Face),
    (forall d, In d snapshot ->
               forallb (comparable (det_descriptor d)) gallery = true) ->
    map (fun d => shouldBlur d gallery) snapshot
    = map (fun d => Ok (isMatch d gallery)) snapshot
    /\ map (fun d => shouldBlur d []) snapshot
       = map (fun _ => Ok false) snapshot
    /\ map (fun d => distancesComputed d []) snapshot
       = map (fun _ => []) snapshot.
Proof.
  intros snapshot gallery Hcomp. repeat split.
  apply map_ext_in. intros d Hin.
  rewrite (proj1 (shouldBlur_scan d gallery)).
  rewrite (scanDatabase_comparable _ _ (Hcomp d Hin)).
  now rewrite (isMatch_comparable _ _ (Hcomp d Hin)).
Qed.

End WithPlatform.

(** The two demo detections against the enrolled face: the first is
    redacted, the second is not. *)
Lemma matcher_verdict_is_min_below_threshold_witness :
  map (fun d => shouldBlur (P := Demo.platform) d [Demo.known])
      [Demo.seen; Demo.stranger]
  = [Ok true; Ok false]
  /\ map (fun d => Ok (isMatch (P := Demo.platform) d [Demo.known]))
         [Demo.seen; Demo.stranger]
     = map (fun d => shouldBlur (P := Demo.platform) d [Demo.known])
           [Demo.seen; Demo.stranger].
Proof.
  split; [reflexivity|]. symmetry.
  apply (@matcher_verdict_is_min_below_threshold Demo.platform
           [Demo.seen; Demo.stranger] [Demo.known]).
  intros d [<-|[<-|[]]]; reflexivity.
Defined.

(** C1 as stated fails: against the gallery that importing an exported
    file leaves, whose entry has an empty descriptor, the scan for a
    detection throws and gives no verdict. *)
Lemma matcher_gives_no_verdict_on_reimported_gallery :
  FaceManager.faceDatabase
    (FaceManager.importDatabase (P := Demo.reader)
       (Some (Demo.document Demo.exported7)) Demo.manager0)
  = [Demo.emptied]
  /\ shouldBlur (P := Demo.reader) Demo.seen [Demo.emptied]
     = Throw Demo.lengthMismatch.
Proof. split; reflexivity. Qed.

End MatcherFacts.

Module RenderFacts.
Import Js VideoStream Spec.

Section WithPlatform.
Context {P : Platform}.

Lemma drawDetections_complete (ds : list Detection) (db : list Face) (n : nat) :
  forallb (fun d => scanCompletes d db) ds = true ->
  drawDetections ds db n
  = (flat_map (fun d => drawDetection (box d) (verdict d db)) ds,
     Ok (n + List.length (filter (fun d => verdict d db) ds))).
Proof.
  revert n. induction ds as [|d ds IH]; intros n; simpl.
  - now rewrite Nat.add_0_r.
  - unfold scanCompletes at 1, verdict at 1 3.
    destruct (shouldBlur d db) as [b|e]; [|discriminate].
    simpl. intros H. rewrite (IH _ H).
    destruct b; simpl; repeat f_equal; lia.
Qed.

Lemma drawDetections_incomplete (ds : list Detection) (db : list Face) (n : nat) :
  forallb (fun d => scanCompletes d db) ds = false ->
  exists e, snd (drawDetections ds db n) = Throw e.
Proof.
  revert n. induction ds as [|d ds IH]; intros n; simpl; [discriminate|].
  unfold scanCompletes at 1.
  destruct (shouldBlur d db) as [b|e]; simpl; [|eauto].
  intros H.
  destruct (IH (if b then S n else n) H) as [e He].
  destruct (drawDetections ds db (if b then S n else n)) as [ops count].
  simpl in *. eauto.
Qed.

Lemma drawDetections_overlay (ds : list Detection) (db : list Face) (n : nat) :
  filter isOverlay (fst (drawDetections ds db n)) = fst (drawDetections ds db n)
  /\ (forall op b, In op (fst (drawDetections ds db n)) ->
                   Controls.boxOf op = Some b -> In b (map box ds)).
Proof.
  revert n. induction ds as [|d ds IH]; intros n; simpl.
  - split; [reflexivity|intros op b []].
  - destruct (shouldBlur d db) as [blur|e]; simpl;
      [|split; [reflexivity|intros op b []]].
    destruct (IH (if blur then S n else n)) as [Hov Hbox].
    destruct (drawDetections ds db (if blur then S n else n)) as [ops count].
    simpl in *. split.
    + rewrite filter_app, Hov. f_equal. destruct blur; reflexivity.
    + intros op b Hin Hb. apply in_app_or in Hin as [Hin|Hin].
      * left. destruct blur; simpl in Hin;
          repeat (destruct Hin as [<-|Hin];
                  [try discriminate; now injection Hb|]);
          destruct Hin.
      * right. eapply Hbox; eauto.
Qed.

Lemma drawFrame_complete (cv : Canvas) (ds : list Detection) (db : list Face) :
  forallb (fun d => scanCompletes d db) ds = true ->
  drawFrame cv ds db
  = {| drawn := DrawImage (canvas_width cv) (canvas_height cv)
                :: flat_map (fun d => drawDetection (box d) (verdict d db)) ds;
       statsUpdate :=
         Some (fun s => {| fps := fps s;
                           facesBlurred :=
                             List.length (filter (fun d => verdict d db) ds);
                           facesDetected := List.length ds |});
       thrown := None |}.
Proof.
  intros H. unfold drawFrame. now rewrite (drawDetections_complete ds db 0 H).
Qed.

Lemma drawFrame_incomplete (cv : Canvas) (ds : list Detection) (db : list Face) :
  forallb (fun d => scanCompletes d db) ds = false ->
  statsUpdate (drawFrame cv ds db) = None
  /\ exists e, thrown (drawFrame cv ds db) = Some e.
Proof.
  intros H. unfold drawFrame.
  destruct (drawDetections_incomplete ds db 0 H) as [e He].
  destruct (drawDetections ds db 0) as [ops count]. simpl in He. subst count.
  simpl. eauto.
Qed.

Lemma processFrame_ready (c : Component) :
  renderReady c = true ->
  exists video canvas,
    videoRef c = Some video /\ canvasRef c = Some canvas /\
    processFrame c = drawFrame canvas (lastDetectionsRef c) (faceDatabase c).
Proof.
  unfold renderReady, processFrame.
  destruct (videoRef c) as [video|]; [|discriminate].
  destruct (canvasRef c) as [canvas|]; [|discriminate].
  intros H. apply andb_true_iff in H as [Hm Hc]. rewrite Hm, Hc. simpl.
  eauto.
Qed.

Lemma processFrame_not_ready (c : Component) :
  renderReady c = false -> processFrame c = noFrame.
Proof.
  unfold renderReady, processFrame.
  destruct (videoRef c); [|reflexivity].
  destruct (canvasRef c); [|reflexivity].
  destruct (modelsLoaded c); simpl; [|reflexivity].
  now intros ->.
Qed.

Lemma processFrame_published (c : Component) (update : Stats -> Stats) :
  statsUpdate (processFrame c) = Some update ->
  renderReady c = true /\ scansComplete c = true
  /\ exists canvas,
       processFrame c
       = {| drawn := DrawImage (canvas_width canvas) (canvas_height canvas)
                     :: flat_map (fun d => drawDetection (box d)
                                             (verdict d (faceDatabase c)))
                                 (lastDetectionsRef c);
            statsUpdate :=
              Some (fun s => {| fps := fps s;
                                facesBlurred := List.length (matched c);
                                facesDetected :=
                                  List.length (lastDetectionsRef c) |});
            thrown := None |}.
Proof.
  intros Hu. destruct (renderReady c) eqn:R.
  - destruct (processFrame_ready c R) as (v & cv & _ & _ & E).
    unfold scansComplete.
    destruct (forallb (fun d => scanCompletes d (faceDatabase c))
                      (lastDetectionsRef c)) eqn:S.
    + repeat split. exists cv. rewrite E. now apply drawFrame_complete.
    + rewrite E in Hu.
      destruct (drawFrame_incomplete cv _ _ S) as [Hnone _]. congruence.
  - rewrite (processFrame_not_ready c R) in Hu. discriminate.
Qed.

(** C7, as the code has it. An invocation of the render step that
    passes the guards of processFrame and in which no distance
    computation throws publishes stats, and the stats an invocation
    publishes carry facesDetected = length of the current snapshot and
    facesBlurred = number of detections whose verdict is true. With an
    empty snapshot nothing but the video frame is drawn, and an
    invocation that passes the guards publishes the counts 0 and 0. *)
Theorem render_publishes_snapshot_counts :
  forall c : Component,
    (renderReady c = true -> scansComplete c = true ->
     exists update, statsUpdate (processFrame c) = Some update)
    /\ (forall update ds,
          statsUpdate (processFrame c) = Some update ->
          facesDetected (update ds) = List.length (lastDetectionsRef c)
          /\ facesBlurred (update ds) = List.length (matched c))
    /\ (lastDetectionsRef c = [] ->
        filter isOverlay (drawn (processFrame c)) = []
        /\ (renderReady c = true ->
            exists update,
              statsUpdate (processFrame c) = Some update
              /\ forall ds, facesDetected (update ds) = 0
                            /\ facesBlurred (update ds) = 0)).
Proof.
  intros c.
  assert (Hready : renderReady c = true -> scansComplete c = true ->
                   statsUpdate (processFrame c)
                   = Some (fun s =>
                             {| fps := fps s;
                                facesBlurred := List.length (matched c);
                                facesDetected :=
                                  List.length (lastDetectionsRef c) |})).
  { intros R S. destruct (processFrame_ready c R) as (v & cv & _ & _ & E).
    rewrite E. unfold scansComplete in S.
    now rewrite (drawFrame_complete cv _ _ S). }
  split; [|split].
  - intros R S. rewrite (Hready R S). eauto.
  - intros update ds Hu.
    destruct (processFrame_published c Hu) as (R & S & _).
    rewrite (Hready R S) in Hu. injection Hu as <-. now simpl.
  - intros Hempty.
    assert (S : scansComplete c = true)
      by (unfold scansComplete; now rewrite Hempty).
    split.
    + destruct (renderReady c) eqn:R.
      * destruct (processFrame_ready c R) as (v & cv & _ & _ & E).
        rewrite E. unfold scansComplete in S.
        rewrite (drawFrame_complete cv _ _ S), Hempty. reflexivity.
      * now rewrite (processFrame_not_ready c R).
    + intros R. rewrite (Hready R S). eexists. split; [reflexivity|].
      intros ds. simpl. unfold matched. rewrite Hempty. now simpl.
Qed.

End WithPlatform.

(** The render step on the demo component: two faces detected, the one
    near the enrolled face redacted. *)
Lemma render_publishes_snapshot_counts_witness :
  renderReady Demo.component0 = true
  /\ scansComplete (P := Demo.platform) Demo.component0 = true
  /\ exists update,
       statsUpdate (processFrame (P := Demo.platform) Demo.component0) = Some update
       /\ facesDetected (update Demo.stats0) = 2
       /\ facesBlurred (update Demo.stats0) = 1.
Proof.
  split; [reflexivity|]. split; [reflexivity|].
  destruct (render_publishes_snapshot_counts (P := Demo.platform) Demo.component0)
    as [Hex [Hpub _]].
  destruct (Hex eq_refl eq_refl) as [update Hu].
  exists update. split; [exact Hu|].
  destruct (Hpub update Demo.stats0 Hu) as [Hd Hb].
  split; [exact Hd|]. rewrite Hb. vm_compute. reflexivity.
Defined.

(** C7 as stated fails: rendering the two cached detections against the
    re-imported gallery passes the guards, draws the video frame, throws
    in the first distance computation and publishes nothing, so that the
    stats still read 0 detected. *)
Lemma render_that_throws_publishes_nothing :
  renderReady Demo.reimported = true
  /\ List.length (lastDetectionsRef Demo.reimported) = 2
  /\ statsUpdate (processFrame (P := Demo.reader) Demo.reimported) = None
  /\ thrown (processFrame (P := Demo.reader) Demo.reimported)
     = Some Demo.lengthMismatch
  /\ facesDetected
       (detectionStats
          (commitFrame (processFrame (P := Demo.reader) Demo.reimported)
                       Demo.reimported))
     = 0.
Proof. repeat split. Qed.

End RenderFacts.

Module DetectLoopFacts.
Import Js VideoStream DetectLoop.

Lemma run_app (e1 e2 : list Event) (l : Loop) :
  run (e1 ++ e2) l = run e2 (run e1 l).
Proof. apply fold_left_app. Qed.

Lemma run_snoc (events : list Event) (e : Event) (l : Loop) :
  run (events ++ [e]) l = step e (run events l).
Proof. now rewrite run_app. Qed.

Lemma calls_app (l1 l2 : list (nat * Action)) :
  calls (l1 ++ l2) = calls l1 + calls l2.
Proof. unfold calls. now rewrite filter_app, length_app. Qed.

Lemma paced_app (l1 l2 : list (nat * Action)) :
  paced l1 -> paced l2 ->
  Forall (fun a => isSettle a = true ->
            Forall (fun b => isCall b = true -> fst a + POLL_INTERVAL <= fst b) l2) l1 ->
  paced (l1 ++ l2).
Proof.
  induction l1 as [|a l1 IH]; simpl; intros H1 H2 H12; [exact H2|].
  destruct H1 as [Ha H1]. inversion H12 as [|? ? Ha2 H12']; subst.
  split.
  - intros Hs. apply Forall_app. split; [exact (Ha Hs)|exact (Ha2 Hs)].
  - now apply IH.
Qed.

Lemma Inv_outstanding (l : Loop) :
  Inv l ->
  List.length (filter isSettle (log l)) <= List.length (filter isCall (log l))
  /\ outstanding (log l) <= 1.
Proof.
  intros [_ _ Hc _]. unfold outstanding. rewrite Hc.
  destruct (pc l); lia.
Qed.

Lemma Inv_loopHead (l : Loop) :
  Forall (fun a => fst a <= clock l) (log l) ->
  paced (log l) ->
  List.length (filter isCall (log l)) = List.length (filter isSettle (log l)) ->
  Forall (fun a => isSettle a = true -> fst a + POLL_INTERVAL <= clock l) (log l) ->
  Inv (loopHead l).
Proof.
  intros Hpast Hpaced Hcount Hdue. unfold loopHead.
  destruct (stopped l); [|destruct (videoLive (video l))];
    unfold suspend; simpl; rewrite ?app_nil_r.
  - constructor; simpl; auto; lia.
  - constructor; simpl.
    + apply Forall_app. split; [exact Hpast|]. repeat constructor.
    + apply paced_app; [exact Hpaced|simpl; auto|].
      eapply Forall_impl; [|exact Hdue]. intros a Ha Hs.
      repeat constructor. simpl. intros _. exact (Ha Hs).
    + rewrite !filter_app, !length_app. simpl. lia.
    + exact I.
  - constructor; simpl.
    + apply Forall_app. split; [exact Hpast|]. repeat constructor.
    + apply paced_app; [exact Hpaced|simpl; auto|].
      eapply Forall_impl; [|exact Hdue]. intros a _ _.
      repeat constructor; simpl; try discriminate.
    + rewrite !filter_app, !length_app. simpl. lia.
    + apply Forall_app. split.
      * eapply Forall_impl; [|exact Hpast]. simpl. intros a Ha _. lia.
      * repeat constructor; simpl; try discriminate.
Qed.

Lemma Inv_step (e : Event) (l : Loop) : Inv l -> Inv (step e l).
Proof.
  intros [Hpast Hpaced Hcount Hdue]. destruct e; simpl.
  - (* Elapse *)
    constructor; simpl; auto.
    eapply Forall_impl; [|exact Hpast]. simpl. intros; lia.
  - (* DetectResolves *)
    destruct (pc l) eqn:Epc; try (constructor; rewrite ?Epc; assumption).
    unfold publish, suspend. constructor; simpl.
    + apply Forall_app. split; [exact Hpast|]. repeat constructor.
    + apply paced_app; [exact Hpaced| |].
      * simpl. repeat split; auto. intros _. repeat constructor;
        simpl; try discriminate.
      * eapply Forall_impl; [|exact Hpast]. intros a _ _.
        repeat constructor; simpl; discriminate.
    + rewrite !filter_app, !length_app. simpl. lia.
    + apply Forall_app. split.
      * eapply Forall_impl; [|exact Hpast]. simpl. intros a Ha _. lia.
      * repeat constructor; simpl; intros; lia.
  - (* DetectRejects *)
    destruct (pc l) eqn:Epc; try (constructor; rewrite ?Epc; assumption).
    unfold suspend. constructor; simpl.
    + apply Forall_app. split; [exact Hpast|]. repeat constructor.
    + apply paced_app; [exact Hpaced| |].
      * simpl. repeat split; auto.
      * eapply Forall_impl; [|exact Hpast]. intros a _ _.
        repeat constructor; simpl; discriminate.
    + rewrite !filter_app, !length_app. simpl. lia.
    + exact I.
  - (* TimerFires *)
    destruct (pc l) eqn:Epc; try (constructor; rewrite ?Epc; assumption).
    destruct (due <=? clock l) eqn:Edue;
      [|constructor; rewrite ?Epc; assumption].
    apply Nat.leb_le in Edue.
    apply Inv_loopHead; auto; [lia|].
    eapply Forall_impl; [|exact Hdue]. simpl. intros a Ha Hs.
    specialize (Ha Hs). lia.
  - (* Cleanup *)
    constructor; simpl; auto.
  - (* VideoChanges *)
    constructor; simpl; auto.
Qed.

Lemma Inv_run (events : list Event) (l : Loop) : Inv l -> Inv (run events l).
Proof.
  revert l. induction events as [|e events IH]; intros l H; simpl; [exact H|].
  apply IH, Inv_step, H.
Qed.

Lemma Inv_detectEffect (modelsLoaded : bool) (v : option VideoElement)
  (cached : list Detection) (t0 : nat) (l0 : Loop) :
  detectEffect modelsLoaded v cached t0 = Some l0 -> Inv l0.
Proof.
  unfold detectEffect. destruct v as [e|]; [|discriminate].
  destruct modelsLoaded; simpl; [|discriminate].
  intros [= <-]. apply Inv_loopHead; simpl; auto.
Qed.

(** C4. From the start of a run of the detection loop on, whatever the
    browser does and whenever it does it, no extraction settles that was
    not called, at most one extraction call is outstanding, and every
    extraction call is made at least 200 ms after every extraction that
    settled before it. *)
Theorem at_most_one_extraction_outstanding :
  forall (modelsLoaded : bool) (v : option VideoElement)
         (cached : list Detection) (t0 : nat) (l0 : Loop)
         (events : list Event),
    detectEffect modelsLoaded v cached t0 = Some l0 ->
    List.length (filter isSettle (log (run events l0)))
    <= List.length (filter isCall (log (run events l0)))
    /\ outstanding (log (run events l0)) <= 1
    /\ paced (log (run events l0)).
Proof.
  intros modelsLoaded v cached t0 l0 events H.
  pose proof (Inv_run events (Inv_detectEffect _ _ _ _ H)) as HI.
  destruct (Inv_outstanding HI) as [Hle Hout].
  repeat split; [exact Hle|exact Hout|exact (inv_paced HI)].
Qed.

(** One run with a slow and a fast extraction. *)
Lemma at_most_one_extraction_outstanding_witness :
  detectEffect true (Some Demo.video0) [] 0 = Some Demo.loop0
  /\ outstanding (log (run Demo.twoPolls Demo.loop0)) <= 1
  /\ paced (log (run Demo.twoPolls Demo.loop0)).
Proof.
  split; [reflexivity|].
  exact (proj2 (at_most_one_extraction_outstanding
                  true (Some Demo.video0) [] 0 Demo.twoPolls eq_refl)).
Defined.

(* --------------------------------------------------------------------- *)
(** *** Stopping *)

Lemma stopped_step (e : Event) (l : Loop) :
  stopped l = true ->
  stopped (step e l) = true /\ calls (log (step e l)) = calls (log l).
Proof.
  intros Hs. destruct e; simpl; auto.
  - destruct (pc l); auto. unfold publish, suspend. simpl.
    rewrite calls_app. unfold calls. simpl. split; [exact Hs|lia].
  - destruct (pc l); auto. unfold suspend. simpl.
    rewrite calls_app. unfold calls. simpl. split; [exact Hs|lia].
  - destruct (pc l); auto. destruct (due <=? clock l); auto.
    unfold loopHead. rewrite Hs. unfold suspend. simpl.
    now rewrite app_nil_r.
Qed.

Lemma stopped_run (events : list Event) (l : Loop) :
  stopped l = true ->
  stopped (run events l) = true /\ calls (log (run events l)) = calls (log l).
Proof.
  revert l. induction events as [|e events IH]; intros l Hs; simpl; [auto|].
  destruct (stopped_step e l Hs) as [Hs' Hc].
  destruct (IH _ Hs') as [Hs'' Hc']. split; [exact Hs''|congruence].
Qed.

(** C2, as the code has it. Once the cleanup has set [stopped], no
    further extraction call is made, whatever happens afterwards, and
    the run returns when its pending timer fires; but an extraction
    that was in flight at that moment still publishes its result when
    it resolves. *)
Theorem stop_takes_effect_at_next_poll :
  forall (l : Loop) (events : list Event),
    calls (log (run events (step Cleanup l))) = calls (log l)
    /\ (forall detections,
          pc l = AwaitDetect ->
          lastDetections (step (DetectResolves detections) (step Cleanup l))
          = detections)
    /\ (forall due,
          pc l = AwaitTimer due -> due <= clock l ->
          pc (step TimerFires (step Cleanup l)) = Returned).
Proof.
  intros l events. split; [|split].
  - destruct (stopped_run events (step Cleanup l) eq_refl) as [_ H].
    exact H.
  - intros detections Hpc. simpl. now rewrite Hpc.
  - intros due Hpc Hdue. simpl. rewrite Hpc.
    apply Nat.leb_le in Hdue. now rewrite Hdue.
Qed.

(** A stop 50 ms into the first extraction: one call was made and one
    call it stays; the result is published 30 ms later all the same. *)
Lemma stop_takes_effect_at_next_poll_witness :
  pc (run [Elapse 50] Demo.loop0) = AwaitDetect
  /\ calls (log (run [Elapse 30; DetectResolves [Demo.seen]; Elapse 200;
                      TimerFires; Elapse 200; TimerFires]
                     (step Cleanup (run [Elapse 50] Demo.loop0)))) = 1
  /\ lastDetections (step (DetectResolves [Demo.seen])
                          (step Cleanup (run [Elapse 50] Demo.loop0)))
     = [Demo.seen].
Proof.
  split; [reflexivity|].
  destruct (stop_takes_effect_at_next_poll
              (run [Elapse 50] Demo.loop0)
              [Elapse 30; DetectResolves [Demo.seen]; Elapse 200;
               TimerFires; Elapse 200; TimerFires]) as [Hc [Hp _]].
  split; [exact Hc|exact (Hp [Demo.seen] eq_refl)].
Defined.

(** C2 as stated fails: the loop is told to stop while its first
    extraction is in flight, the extraction resolves, and its result
    becomes the current snapshot. *)
Lemma stop_does_not_discard_in_flight_result :
  let l := run [Elapse 50; Cleanup; Elapse 30] Demo.loop0 in
  pc l = AwaitDetect
  /\ stopped l = true
  /\ lastDetections l = []
  /\ lastDetections (step (DetectResolves [Demo.seen]) l) = [Demo.seen].
Proof. repeat split. Qed.

(* --------------------------------------------------------------------- *)
(** *** A failing extraction *)

Lemma rejected_step (e : Event) (l : Loop) :
  pc l = Rejected ->
  pc (step e l) = Rejected
  /\ log (step e l) = log l
  /\ lastDetections (step e l) = lastDetections l.
Proof.
  intros Hpc. destruct e; simpl; rewrite ?Hpc; auto.
Qed.

Lemma rejected_run (events : list Event) (l : Loop) :
  pc l = Rejected ->
  pc (run events l) = Rejected
  /\ log (run events l) = log l
  /\ lastDetections (run events l) = lastDetections l.
Proof.
  revert l. induction events as [|e events IH]; intros l Hpc; simpl; [auto|].
  destruct (rejected_step e l Hpc) as (Hpc' & Hlog & Hlast).
  destruct (IH _ Hpc') as (H1 & H2 & H3).
  repeat split; congruence.
Qed.

(** C3, what the code does. When the awaited extraction rejects, the
    cached snapshot is kept, but the run is over: whatever happens
    afterwards, it stays rejected and makes no further extraction call. *)
Theorem extraction_failure_ends_the_run :
  forall (l : Loop) (events : list Event),
    pc l = AwaitDetect ->
    pc (run events (step DetectRejects l)) = Rejected
    /\ calls (log (run events (step DetectRejects l))) = calls (log l)
    /\ lastDetections (run events (step DetectRejects l)) = lastDetections l.
Proof.
  intros l events Hpc.
  assert (Hr : pc (step DetectRejects l) = Rejected)
    by (simpl; now rewrite Hpc).
  destruct (rejected_run events _ Hr) as (H1 & H2 & H3).
  split; [exact H1|]. split.
  - rewrite H2. simpl. rewrite Hpc. unfold suspend. simpl.
    rewrite calls_app. unfold calls. simpl. lia.
  - rewrite H3. simpl. now rewrite Hpc.
Qed.

(** The first extraction of the demo run rejects; two poll intervals
    later the loop has still made one call only. *)
Lemma extraction_failure_ends_the_run_witness :
  pc Demo.loop0 = AwaitDetect
  /\ pc (run [Elapse 200; TimerFires; Elapse 200; TimerFires]
             (step DetectRejects Demo.loop0)) = Rejected
  /\ calls (log (run [Elapse 200; TimerFires; Elapse 200; TimerFires]
                     (step DetectRejects Demo.loop0))) = 1.
Proof.
  split; [reflexivity|].
  destruct (extraction_failure_ends_the_run
              Demo.loop0 [Elapse 200; TimerFires; Elapse 200; TimerFires]
              eq_refl) as (H1 & H2 & _).
  split; [exact H1|exact H2].
Defined.

End DetectLoopFacts.

Module SessionFacts.
Import Js VideoStream Controls.





Section WithPlatform.
Context {P : Platform}.




End WithPlatform.


End SessionFacts.

Module GalleryFacts.
Import Js FaceManager.

(* --------------------------------------------------------------------- *)
(** *** Batch enrollment *)

Section WithImages.
Context {I : ImagePlatform}.

Lemma enrollLoop_settled (now : nat -> Z) (files : list File) :
  forall (i : nat) (acc result : list Face),
    enrollLoop now i files acc = Resolved result ->
    result = acc ++ enrolled now i files.
Proof.
  induction files as [|f files IH]; intros i acc result; simpl.
  - intros [= <-]. now rewrite app_nil_r.
  - unfold enrolledAt, isImage.
    destruct (String.prefix "image/" (file_type f)); simpl; [|apply IH].
    destruct (processImage f (beforeDot (file_name f))) as [[[d image]|]|];
      [| apply IH | discriminate].
    intros H. apply IH in H. now rewrite <- app_assoc in H.
Qed.

Lemma enrollLoop_settles (now : nat -> Z) (files : list File) :
  Forall (fun f => isImage f = true -> decodes f = true) files ->
  forall (i : nat) (acc : list Face),
    enrollLoop now i files acc = Resolved (acc ++ enrolled now i files).
Proof.
  induction 1 as [|f files Hf _ IH]; intros i acc; simpl.
  - now rewrite app_nil_r.
  - unfold enrolledAt. unfold isImage in *.
    destruct (String.prefix "image/" (file_type f)); simpl; [|apply IH].
    specialize (Hf eq_refl). unfold decodes in Hf. unfold processImage.
    destruct (loadImage f) as [img|]; [|discriminate].
    destruct (getContext2d f); simpl; [|apply IH].
    destruct (detectSingleFace img) as [[d|]|e]; simpl;
      rewrite ?IH, <- ?app_assoc; reflexivity.
Qed.

Lemma enrolledAt_succeeds (now : nat -> Z) (i : nat) (f : File) :
  enrolledAt now i f
  = if isImage f && succeeds f
    then match processImage f (beforeDot (file_name f)) with
         | Resolved (Some (d, image)) =>
             [newFace (decimalZ (now i + Z.of_nat i))
                      (beforeDot (file_name f)) d image]
         | _ => []
         end
    else [].
Proof.
  unfold enrolledAt, succeeds. destruct (isImage f); [|reflexivity].
  destruct (processImage f (beforeDot (file_name f))) as [[[d image]|]|];
    reflexivity.
Qed.

Lemma enrolled_names (now : nat -> Z) (files : list File) (i : nat) :
  map face_name (enrolled now i files)
  = map (fun f => Some (JStr (beforeDot (file_name f))))
        (filter succeeds (filter isImage files)).
Proof.
  revert i. induction files as [|f files IH]; intros i; simpl; [reflexivity|].
  rewrite map_app, IH, enrolledAt_succeeds.
  destruct (isImage f); simpl; [|reflexivity].
  unfold succeeds.
  destruct (processImage f (beforeDot (file_name f))) as [[[d image]|]|];
    reflexivity.
Qed.

(** X4. A batch whose image files all decode completes, whichever of
    them show a face: the gallery becomes the old gallery followed by one
    new entry per image in which a face was found, in order and named
    after its file; the error is set only when no image succeeded, and
    then the gallery is the old one. *)
Theorem batch_enrollment_partitions :
  forall (now : nat -> Z) (files : list File) (m : Manager),
    Forall (fun f => isImage f = true -> decodes f = true) files ->
    exists newFaces : list Face,
      handleFileSelect now files m
      = Resolved {| faceDatabase := faceDatabase m ++ newFaces;
                    processing := false;
                    error := match filter succeeds (filter isImage files) with
                             | [] => noFacesDetected
                             | _ => EmptyString
                             end |}
      /\ List.length newFaces
         = List.length (filter succeeds (filter isImage files))
      /\ map face_name newFaces
         = map (fun f => Some (JStr (beforeDot (file_name f))))
               (filter succeeds (filter isImage files)).
Proof.
  intros now files m Hdec.
  exists (enrolled now 0 files).
  pose proof (enrolled_names now files 0) as Hnames.
  assert (Hlen : List.length (enrolled now 0 files)
                 = List.length (filter succeeds (filter isImage files))).
  { rewrite <- (length_map face_name), Hnames. apply length_map. }
  split; [|split; assumption].
  unfold handleFileSelect.
  rewrite (enrollLoop_settles now Hdec 0 []). simpl.
  destruct (enrolled now 0 files) as [|face faces];
    destruct (filter succeeds (filter isImage files)); try discriminate.
  - now rewrite app_nil_r.
  - reflexivity.
Qed.

End WithImages.

(** Three images, the second without a face: two entries are added. *)
Lemma batch_enrollment_partitions_witness :
  exists newFaces : list Face,
    handleFileSelect (I := Demo.images) (fun _ => 1000%Z)
      Demo.threeFiles Demo.manager0
    = Resolved {| faceDatabase := [Demo.known] ++ newFaces;
                  processing := false; error := EmptyString |}
    /\ List.length newFaces = 2.
Proof.
  destruct (@batch_enrollment_partitions Demo.images (fun _ => 1000%Z)
              Demo.threeFiles Demo.manager0) as (newFaces & H & Hlen & _).
  - repeat constructor.
  - exists newFaces. split; [exact H|exact Hlen].
Defined.

(** C6, what the code does. A batch of three image files, the first
    and the third with a face, the second one the browser can not
    decode: [processImage] never settles for the second, so the batch
    never completes; neither of the two faces is added and no error is
    set. *)
Theorem batch_with_undecodable_image_never_settles :
  isImage Demo.corrupt = true
  /\ decodes (I := Demo.images) Demo.corrupt = false
  /\ filter (succeeds (I := Demo.images)) Demo.tornBatch
     = [Demo.portrait "ann.jpg"; Demo.portrait "bob.jpg"]
  /\ handleFileSelect (I := Demo.images) (fun _ => 1000%Z)
       Demo.tornBatch Demo.manager0
     = Pending.
Proof. repeat split. Qed.

(* --------------------------------------------------------------------- *)
(** *** Ids *)

Lemma decimalZ_inj (a b : Z) : decimalZ a = decimalZ b -> a = b.
Proof.
  unfold decimalZ. intros H.
  apply (f_equal NilEmpty.int_of_string) in H.
  rewrite !NilEmpty.isi in H. injection H as H.
  now apply DecimalZ.to_int_inj.
Qed.

Lemma idAt_inj (now : nat -> Z) (i j : nat) :
  (forall a b, a <= b -> (now a <= now b)%Z) ->
  idAt now i = idAt now j -> i = j.
Proof.
  intros Hmono H. unfold idAt in H. injection H as H.
  apply decimalZ_inj in H.
  destruct (Nat.lt_trichotomy i j) as [Hlt|[Heq|Hgt]]; [|exact Heq|].
  - pose proof (Hmono i j (Nat.lt_le_incl _ _ Hlt)). lia.
  - pose proof (Hmono j i (Nat.lt_le_incl _ _ Hgt)). lia.
Qed.

Section WithImages.
Context {I : ImagePlatform}.

Lemma enrolledAt_ids (now : nat -> Z) (i : nat) (f : File) :
  ids (enrolledAt now i f) = [] \/ ids (enrolledAt now i f) = [idAt now i].
Proof.
  unfold enrolledAt. destruct (isImage f); [|now left].
  destruct (processImage f (beforeDot (file_name f))) as [[[d image]|]|];
    [now right|now left|now left].
Qed.

Lemma enrolled_ids_from (now : nat -> Z) (files : list File) (i : nat) :
  Forall (fun v => exists j, i <= j /\ v = idAt now j)
         (ids (enrolled now i files)).
Proof.
  revert i. induction files as [|f files IH]; intros i; simpl; [constructor|].
  unfold ids in *. rewrite map_app. apply Forall_app. split.
  - destruct (enrolledAt_ids now i f) as [E|E]; unfold ids in E; rewrite E;
      repeat constructor. exists i. auto.
  - eapply Forall_impl; [|apply IH]. simpl.
    intros v (j & Hj & ->). exists j. split; [lia|reflexivity].
Qed.

Lemma enrolled_ids_NoDup (now : nat -> Z) (files : list File) (i : nat) :
  (forall a b, a <= b -> (now a <= now b)%Z) ->
  NoDup (ids (enrolled now i files)).
Proof.
  intros Hmono. revert i.
  induction files as [|f files IH]; intros i; simpl; [constructor|].
  unfold ids in *. rewrite map_app.
  destruct (enrolledAt_ids now i f) as [E|E]; unfold ids in E; rewrite E;
    simpl; [apply IH|].
  constructor; [|apply IH].
  intros Hin.
  pose proof (enrolled_ids_from now files (S i)) as Hfrom.
  unfold ids in Hfrom. rewrite Forall_forall in Hfrom.
  destruct (Hfrom _ Hin) as (j & Hj & Heq).
  apply idAt_inj in Heq; [lia|exact Hmono].
Qed.

Lemma removeFace_NoDup (id : string) (db : list Face) :
  NoDup (ids db) -> NoDup (ids (filter (idDiffers id) db)).
Proof.
  unfold ids. induction db as [|face db IH]; simpl; intros H; [constructor|].
  inversion H as [|? ? Hnotin Hrest]; subst.
  destruct (idDiffers id face); simpl; [|now apply IH].
  constructor; [|now apply IH].
  intros Hin. apply Hnotin.
  apply in_map_iff in Hin as (g & Hg & Hin).
  apply filter_In in Hin as [Hin _].
  apply in_map_iff. eauto.
Qed.

(** C8, as the code has it. No operation compares a new id with the
    ids in the gallery. What holds is this: the entries one batch adds
    have pairwise distinct ids as long as the clock does not run
    backwards during the batch, and removing an entry keeps a gallery
    with distinct ids distinct. *)
Theorem ids_distinct_within_a_batch :
  forall (now : nat -> Z) (files : list File) (m m' : Manager) (id : string),
    (forall a b, a <= b -> (now a <= now b)%Z) ->
    (handleFileSelect now files m = Resolved m' ->
     exists newFaces,
       faceDatabase m' = faceDatabase m ++ newFaces /\ NoDup (ids newFaces))
    /\ (NoDup (ids (faceDatabase m)) ->
        NoDup (ids (faceDatabase (removeFace id m)))).
Proof.
  intros now files m m' id Hmono. split.
  - unfold handleFileSelect.
    destruct (enrollLoop now 0 files []) as [result|] eqn:E; [|discriminate].
    apply enrollLoop_settled in E. simpl in E. subst result.
    pose proof (@enrolled_ids_NoDup now files 0 Hmono) as Hnd.
    destruct (enrolled now 0 files) as [|face faces]; intros [= <-]; simpl.
    + exists []. split; [now rewrite app_nil_r|constructor].
    + exists (face :: faces). split; [reflexivity|exact Hnd].
  - apply removeFace_NoDup.
Qed.

End WithImages.

(** Two portraits and a landscape in one batch, under a ticking clock. *)
Lemma ids_distinct_within_a_batch_witness :
  handleFileSelect (I := Demo.images) Demo.ticking Demo.threeFiles Demo.manager0
  = Resolved Demo.afterThree
  /\ exists newFaces,
       faceDatabase Demo.afterThree = faceDatabase Demo.manager0 ++ newFaces
       /\ NoDup (ids newFaces).
Proof.
  split; [reflexivity|].
  destruct (@ids_distinct_within_a_batch Demo.images Demo.ticking
              Demo.threeFiles Demo.manager0 Demo.afterThree "1") as [H _].
  - intros a b Hab. unfold Demo.ticking. lia.
  - exact (H eq_refl).
Defined.

(** C8 as stated fails: two batches, 300 ms apart, give two entries the
    same id. *)
Lemma enrollment_can_repeat_an_id :
  handleFileSelect (I := Demo.images) (fun _ => 1000%Z) Demo.firstBatch Demo.empty0
  = Resolved Demo.afterFirstBatch
  /\ exists m,
       handleFileSelect (I := Demo.images) (fun _ => 1300%Z)
                        [Demo.portrait "bob.jpg"] Demo.afterFirstBatch
       = Resolved m
       /\ ids (faceDatabase m) = [Some (JStr "1300"); Some (JStr "1300")]
       /\ ~ NoDup (ids (faceDatabase m)).
Proof.
  split; [vm_compute; reflexivity|].
  eexists. split; [vm_compute; reflexivity|].
  split; [reflexivity|].
  intros H. inversion H as [|? ? Hnotin _]; subst.
  apply Hnotin. now left.
Qed.

(* --------------------------------------------------------------------- *)
(** *** Import *)

Section WithPlatform.
Context {P : Platform}.

Lemma getProp_deleteProp (key other : string) (o : list (string * Json)) :
  other <> key -> getProp other (deleteProp key o) = getProp other o.
Proof.
  intros Hne. induction o as [|[k v] o IH]; simpl; [reflexivity|].
  destruct (String.eqb k key) eqn:Ek.
  - apply String.eqb_eq in Ek. subst k.
    destruct (String.eqb key other) eqn:Eo; [|exact IH].
    apply String.eqb_eq in Eo. congruence.
  - simpl. now rewrite IH.
Qed.

Lemma readProp_descriptor (face : Json) :
  face <> JNull -> readProp face "descriptor" = Ok (descriptorOf face).
Proof. intros H. destruct face; try reflexivity. now elim H. Qed.

Lemma fixFace_convertible (face : Json) :
  convertible face = true ->
  exists arr,
    newFloat32Array (descriptorOf face) = Ok arr
    /\ fixFace face
       = Ok {| props := deleteProp "descriptor" (ownProps face);
               descriptor := arr |}.
Proof.
  unfold convertible, fixFace. intros H.
  assert (Hn : face <> JNull) by (destruct face; congruence).
  rewrite (readProp_descriptor Hn). simpl.
  destruct (newFloat32Array (descriptorOf face)) as [arr|e] eqn:E.
  - exists arr. split; reflexivity.
  - destruct face; discriminate.
Qed.

Lemma mapM_fixFace (data : list Json) :
  forallb convertible data = true ->
  exists fixed, mapM fixFace data = Ok fixed /\ Forall2 copied data fixed.
Proof.
  induction data as [|face data IH]; simpl; intros H.
  - exists []. split; [reflexivity|constructor].
  - apply andb_true_iff in H as [Hc Hrest].
    destruct (fixFace_convertible face Hc) as (arr & Harr & Hfix).
    destruct (IH Hrest) as (fixed & Hmap & Hall).
    rewrite Hfix, Hmap. simpl. eexists. split; [reflexivity|].
    constructor; [|exact Hall].
    unfold copied. simpl. repeat split.
    + exact Harr.
    + intros key Hkey. now apply getProp_deleteProp.
    + intros Hnone. rewrite Hnone in Harr. simpl in Harr. congruence.
    + intros l Hl. rewrite Hl in Harr. simpl in Harr.
      injection Harr as <-. apply length_map.
Qed.

(** C10, as the code has it. When no element of the parsed array is
    null and the typed-array constructor throws on no descriptor, every
    element is accepted without any check: the gallery is replaced by
    one entry per element, whose descriptor is the Float32Array made
    from the element's descriptor (empty when there is none, of the
    array's length when it is an array) and whose other properties are
    the element's, and no error is reported. *)
Theorem import_accepts_without_validation :
  forall (f : File) (m : Manager) (data : list Json),
    JSON_parse (file_text f) = Some (JArr data) ->
    forallb convertible data = true ->
    Forall2 copied data (faceDatabase (importDatabase (Some f) m))
    /\ error (importDatabase (Some f) m) = error m.
Proof.
  intros f m data Hparse Hconv. unfold importDatabase. rewrite Hparse.
  destruct (mapM_fixFace data Hconv) as (fixed & Hmap & Hall).
  rewrite Hmap. simpl. split; [exact Hall|reflexivity].
Qed.

(** C5, what the code does. An import replaces the whole gallery or
    leaves it as it was. It replaces it when the text parses to an array
    whose elements all convert; it reports the invalid format, and keeps
    the gallery, when the text does not parse or an element's conversion
    throws; and when the text parses to a value that is not an array it
    changes nothing at all, so that nothing is reported. *)
Theorem import_is_all_or_nothing :
  forall (f : File) (m : Manager),
    (faceDatabase (importDatabase (Some f) m) = faceDatabase m
     \/ exists data,
          JSON_parse (file_text f) = Some (JArr data)
          /\ mapM fixFace data = Ok (faceDatabase (importDatabase (Some f) m)))
    /\ (JSON_parse (file_text f) = None ->
        faceDatabase (importDatabase (Some f) m) = faceDatabase m
        /\ error (importDatabase (Some f) m) = invalidFormat)
    /\ (forall data e,
          JSON_parse (file_text f) = Some (JArr data) ->
          mapM fixFace data = Throw e ->
          faceDatabase (importDatabase (Some f) m) = faceDatabase m
          /\ error (importDatabase (Some f) m) = invalidFormat)
    /\ (forall v,
          JSON_parse (file_text f) = Some v ->
          (forall data, v <> JArr data) ->
          importDatabase (Some f) m = m).
Proof.
  intros f m. unfold importDatabase. split; [|split; [|split]].
  - destruct (JSON_parse (file_text f)) as [v|]; [|now left].
    destruct v as [| | | |elems|]; try now left.
    destruct (mapM fixFace elems) as [fixed|e] eqn:E; [|now left].
    right. exists elems. split; [reflexivity|exact E].
  - intros Hparse. rewrite Hparse. split; reflexivity.
  - intros data e Hparse Hthrow. rewrite Hparse, Hthrow. split; reflexivity.
  - intros v Hparse Hshape. rewrite Hparse.
    destruct v as [| | | |elems|]; try reflexivity.
    exfalso. exact (Hshape elems eq_refl).
Qed.

End WithPlatform.

(** The one-entry database is imported as it is. *)
Lemma import_accepts_without_validation_witness :
  JSON_parse (Platform := Demo.platform) (file_text (Demo.document Demo.database7))
  = Some (JArr [JObj [("id"%string, JStr "7");
                      ("descriptor"%string, JArr [JNum 1; JNum 0])]])
  /\ Forall2 (copied (P := Demo.platform))
             [JObj [("id"%string, JStr "7");
                    ("descriptor"%string, JArr [JNum 1; JNum 0])]]
             (faceDatabase (importDatabase (P := Demo.platform)
                              (Some (Demo.document Demo.database7)) Demo.manager0)).
Proof.
  split; [reflexivity|].
  exact (proj1 (@import_accepts_without_validation Demo.platform
                  (Demo.document Demo.database7) Demo.manager0 _
                  eq_refl eq_refl)).
Defined.

(** C10 as stated fails: the parsed array [[null]] is not accepted; the
    gallery is not replaced and the invalid format is reported. *)
Lemma import_rejects_null_element :
  JSON_parse (Platform := Demo.platform) (file_text (Demo.document "[null]"))
  = Some (JArr [JNull])
  /\ faceDatabase (importDatabase (P := Demo.platform)
                     (Some (Demo.document "[null]")) Demo.manager0)
     = [Demo.known]
  /\ error (importDatabase (P := Demo.platform)
              (Some (Demo.document "[null]")) Demo.manager0)
     = invalidFormat.
Proof. repeat split. Qed.

(** A text that does not parse, an array with a null element, and an
    object: the gallery is kept each time, the first two are reported,
    the third is not. *)
Lemma import_is_all_or_nothing_witness :
  error (importDatabase (P := Demo.platform)
           (Some (Demo.document "not json")) Demo.manager0) = invalidFormat
  /\ faceDatabase (importDatabase (P := Demo.platform)
                     (Some (Demo.document "[null]")) Demo.manager0)
     = [Demo.known]
  /\ error (importDatabase (P := Demo.platform)
              (Some (Demo.document "[null]")) Demo.manager0) = invalidFormat
  /\ importDatabase (P := Demo.platform) (Some (Demo.document "{}")) Demo.manager0
     = Demo.manager0.
Proof.
  destruct (@import_is_all_or_nothing Demo.platform
              (Demo.document "not json") Demo.manager0) as (_ & H1 & _ & _).
  destruct (@import_is_all_or_nothing Demo.platform
              (Demo.document "[null]") Demo.manager0) as (_ & _ & H2 & _).
  destruct (@import_is_all_or_nothing Demo.platform
              (Demo.document "{}") Demo.manager0) as (_ & _ & _ & H3).
  split; [exact (proj2 (H1 eq_refl))|].
  destruct (H2 [JNull] TypeError eq_refl eq_refl) as [H2a H2b].
  split; [exact H2a|]. split; [exact H2b|].
  apply (H3 (JObj [])); [reflexivity|discriminate].
Defined.

(** The import at the input where it departs from C5: a text whose
    top-level value is an object is neither imported nor reported; the
    component is left as it was, its error empty. *)
Lemma import_of_non_array_reports_nothing :
  JSON_parse (Platform := Demo.platform) (file_text (Demo.document "{}"))
  = Some (JObj [])
  /\ error Demo.manager0 = EmptyString
  /\ error (importDatabase (P := Demo.platform)
              (Some (Demo.document "{}")) Demo.manager0)
     = EmptyString
  /\ faceDatabase (importDatabase (P := Demo.platform)
                     (Some (Demo.document "{}")) Demo.manager0)
     = [Demo.known].
Proof. repeat split. Qed.

End GalleryFacts.

(* ===================================================================== *)
(** * Further properties of the code *)
(* ===================================================================== *)

Module MatcherProps.
Import Js VideoStream Spec.

Section WithPlatform.
Context {P : Platform}.

(** X1. The scan of the gallery stops at the first entry closer than the
    threshold: when the verdict is true, the distances computed are those
    to the entries up to and including that first one, all the earlier
    ones being at or beyond the threshold; when it is false, the distance
    to every entry was computed and none is below the threshold; and when
    the scan throws, it is the distance to the first entry after those
    that throws. *)
Theorem scan_stops_at_first_near_entry :
  forall (d : Detection) (db : list Face),
    (shouldBlur d db = Ok true ->
     exists pre k post,
       db = pre ++ k :: post
       /\ Forall (fun g => far (det_descriptor d) g = true) pre
       /\ near (det_descriptor d) k = true
       /\ map Ok (distancesComputed d db)
          = map (distanceTo (det_descriptor d)) (pre ++ [k]))
    /\ (shouldBlur d db = Ok false ->
        Forall (fun g => far (det_descriptor d) g = true) db
        /\ map Ok (distancesComputed d db)
           = map (distanceTo (det_descriptor d)) db)
    /\ (forall e,
          shouldBlur d db = Throw e ->
          exists pre k post,
            db = pre ++ k :: post
            /\ Forall (fun g => far (det_descriptor d) g = true) pre
            /\ distanceTo (det_descriptor d) k = Throw e
            /\ map Ok (distancesComputed d db)
               = map (distanceTo (det_descriptor d)) pre).
Proof.
  intros d db.
  destruct (MatcherFacts.shouldBlur_scan d db) as [-> ->].
  split; [apply MatcherFacts.scanDatabase_found|].
  split; [apply MatcherFacts.scanDatabase_not_found|].
  intros e. apply MatcherFacts.scanDatabase_thrown.
Qed.


End WithPlatform.

(** The detection near [known], against a gallery that holds [known]
    between two far entries: the third distance is not computed. *)
Lemma scan_stops_at_first_near_entry_witness :
  shouldBlur (P := Demo.platform) Demo.seen [Demo.far; Demo.known; Demo.far]
  = Ok true
  /\ List.length (distancesComputed (P := Demo.platform) Demo.seen
                    [Demo.far; Demo.known; Demo.far]) = 2
  /\ exists pre k post,
       [Demo.far; Demo.known; Demo.far] = pre ++ k :: post
       /\ near (P := Demo.platform) (det_descriptor Demo.seen) k = true
       /\ map Ok (distancesComputed (P := Demo.platform) Demo.seen
                    [Demo.far; Demo.known; Demo.far])
          = map (distanceTo (P := Demo.platform) (det_descriptor Demo.seen))
                (pre ++ [k]).
Proof.
  split; [reflexivity|]. split; [reflexivity|].
  destruct (@scan_stops_at_first_near_entry Demo.platform Demo.seen
              [Demo.far; Demo.known; Demo.far]) as [H _].
  destruct (H eq_refl) as (pre & k & post & Hsplit & _ & Hk & Hc).
  exists pre, k, post. repeat split; assumption.
Defined.


End MatcherProps.

Module RenderProps.
Import Js VideoStream Controls.

Section WithPlatform.
Context {P : Platform}.

Lemma drawDetection_calls (b : Box) (blur : bool) :
  List.length (filter isFillRect (drawDetection b blur)) = (if blur then 1 else 0)
  /\ List.length (filter isStrokeRect (drawDetection b blur)) = 1.
Proof. destruct blur; simpl; split; reflexivity. Qed.

Lemma overlay_counts (db : list Face) (ds : list Detection) :
  let ops := flat_map (fun d => drawDetection (box d) (verdict d db)) ds in
  List.length (filter isFillRect ops)
  = List.length (filter (fun d => verdict d db) ds)
  /\ List.length (filter isStrokeRect ops) = List.length ds.
Proof.
  induction ds as [|d ds IH]; cbn [flat_map filter map List.length].
  - split; reflexivity.
  - destruct IH as (Hf & Hs).
    destruct (drawDetection_calls (box d) (verdict d db)) as (Df & Ds).
    rewrite !filter_app, !length_app, Df, Ds, Hf, Hs.
    split; [|reflexivity].
    destruct (verdict d db); reflexivity.
Qed.

(** X3. What a frame draws agrees with what it publishes: every
    rectangle it draws has the box of a detection of the snapshot, as it
    is; and when the frame publishes stats, the number of filled
    rectangles is the published facesBlurred, the number of outlines the
    published facesDetected, and the former is at most the latter. *)
Theorem overlay_agrees_with_the_stats :
  forall c : Component,
    (forall op b,
       In op (drawn (processFrame c)) -> boxOf op = Some b ->
       In b (map box (lastDetectionsRef c)))
    /\ (forall update ds,
          statsUpdate (processFrame c) = Some update ->
          List.length (filter isFillRect (drawn (processFrame c)))
          = facesBlurred (update ds)
          /\ List.length (filter isStrokeRect (drawn (processFrame c)))
             = facesDetected (update ds)
          /\ facesBlurred (update ds) <= facesDetected (update ds)).
Proof.
  intros c. split.
  - intros op b Hin Hbox. destruct (renderReady c) eqn:R.
    + destruct (RenderFacts.processFrame_ready c R) as (v & cv & _ & _ & E).
      rewrite E in Hin. unfold drawFrame in Hin.
      pose proof (proj2 (RenderFacts.drawDetections_overlay
                           (lastDetectionsRef c) (faceDatabase c) 0)) as Hb.
      destruct (drawDetections (lastDetectionsRef c) (faceDatabase c) 0)
        as [ops [n|e]]; simpl in *;
        (destruct Hin as [<-|Hin]; [discriminate|eapply Hb; eauto]).
    + rewrite (RenderFacts.processFrame_not_ready c R) in Hin. destruct Hin.
  - intros update ds Hu.
    destruct (RenderFacts.processFrame_published c Hu) as (_ & _ & cv & E).
    rewrite E in Hu |- *. simpl in Hu. injection Hu as <-. simpl.
    destruct (overlay_counts (faceDatabase c) (lastDetectionsRef c))
      as (Hf & Hs).
    split; [exact Hf|]. split; [exact Hs|].
    unfold matched. apply filter_length_le.
Qed.

(** X5. After the canvas has been sized to the video, a frame that
    passes the guards draws the video at exactly that size and the
    overlay exactly as before: boxes are not rescaled. *)
Theorem frame_is_drawn_at_the_video_size :
  forall (c : Component) (videoWidth videoHeight : nat),
    renderReady c = true ->
    drawn (processFrame (handleVideoLoadedMetadata videoWidth videoHeight c))
    = DrawImage videoWidth videoHeight
      :: filter isOverlay (drawn (processFrame c)).
Proof.
  intros c w h R.
  destruct (RenderFacts.processFrame_ready c R) as (v & cv & Hv & Hcv & E).
  assert (E' : processFrame (handleVideoLoadedMetadata w h c)
               = drawFrame {| canvas_width := w; canvas_height := h;
                              context2d := context2d cv |}
                           (lastDetectionsRef c) (faceDatabase c)).
  { unfold renderReady in R. rewrite Hv, Hcv in R.
    apply andb_true_iff in R as [Hm Hc].
    unfold processFrame, handleVideoLoadedMetadata.
    rewrite Hv, Hcv. simpl. rewrite Hv, Hm, Hc. reflexivity. }
  rewrite E, E'. unfold drawFrame.
  pose proof (proj1 (RenderFacts.drawDetections_overlay
                       (lastDetectionsRef c) (faceDatabase c) 0)) as Hov.
  destruct (drawDetections (lastDetectionsRef c) (faceDatabase c) 0)
    as [ops [n|e]]; simpl in *; now rewrite Hov.
Qed.

End WithPlatform.

Lemma overlay_agrees_with_the_stats_witness :
  exists update,
    statsUpdate (processFrame (P := Demo.platform) Demo.component0) = Some update
    /\ List.length (filter isFillRect
                      (drawn (processFrame (P := Demo.platform) Demo.component0)))
       = facesBlurred (update Demo.stats0)
    /\ facesBlurred (update Demo.stats0) = 1.
Proof.
  eexists. split; [reflexivity|].
  destruct (@overlay_agrees_with_the_stats Demo.platform Demo.component0)
    as (_ & Hcount).
  destruct (Hcount _ Demo.stats0 eq_refl) as (Hf & _ & _).
  split; [exact Hf|reflexivity].
Defined.

Lemma frame_is_drawn_at_the_video_size_witness :
  drawn (processFrame (P := Demo.platform)
           (handleVideoLoadedMetadata 1280 720 Demo.component0))
  = DrawImage 1280 720
    :: filter isOverlay (drawn (processFrame (P := Demo.platform) Demo.component0)).
Proof.
  exact (@frame_is_drawn_at_the_video_size Demo.platform Demo.component0
           1280 720 eq_refl).
Defined.

End RenderProps.

Module LoopProps.
Import Js VideoStream DetectLoop LoopEvents.

Lemma quiet_step (e : Event) (l : Loop) :
  videoLive (video l) = false ->
  keepsVideoOff e = true ->
  videoLive (video (step e l)) = false
  /\ calls (log (step e l)) = calls (log l).
Proof.
  intros Hv He. destruct e; simpl in *; auto.
  - destruct (pc l); auto. unfold publish, suspend. simpl.
    rewrite DetectLoopFacts.calls_app. unfold calls. simpl. split; [exact Hv|lia].
  - destruct (pc l); auto. unfold suspend. simpl.
    rewrite DetectLoopFacts.calls_app. unfold calls. simpl. split; [exact Hv|lia].
  - destruct (pc l); auto. destruct (due <=? clock l); auto.
    unfold loopHead. rewrite Hv.
    destruct (stopped l); unfold suspend; simpl;
      rewrite ?app_nil_r, ?DetectLoopFacts.calls_app; unfold calls; simpl;
      split; auto; lia.
  - split; [|reflexivity]. now apply negb_true_iff in He.
Qed.

Lemma quiet_run (events : list Event) (l : Loop) :
  videoLive (video l) = false ->
  forallb keepsVideoOff events = true ->
  calls (log (run events l)) = calls (log l).
Proof.
  revert l. induction events as [|e events IH]; intros l Hv He; simpl; [auto|].
  simpl in He. apply andb_true_iff in He as [He Hrest].
  destruct (quiet_step e l Hv He) as [Hv' Hc].
  rewrite (IH _ Hv' Hrest). exact Hc.
Qed.

(** X6. While the video element is paused, ended or not mounted, and
    stays so, the loop makes no extraction call, however long it runs;
    it keeps waking: a timer that fires on a run that was not stopped
    sets the next 200 ms timer. *)
Theorem no_extraction_while_the_video_is_off :
  forall (l : Loop) (events : list Event),
    videoLive (video l) = false ->
    forallb keepsVideoOff events = true ->
    calls (log (run events l)) = calls (log l)
    /\ (forall due,
          pc l = AwaitTimer due -> due <= clock l -> stopped l = false ->
          pc (step TimerFires l) = AwaitTimer (clock l + POLL_INTERVAL)).
Proof.
  intros l events Hv He. split; [now apply quiet_run|].
  intros due Hpc Hdue Hs. simpl. rewrite Hpc.
  apply Nat.leb_le in Hdue. rewrite Hdue. unfold loopHead.
  now rewrite Hs, Hv.
Qed.

(** X7. After [stopStream] the video element is paused, so a detection
    loop that reads it makes no further extraction call until the video
    plays again. *)
Theorem no_extraction_after_stopStream :
  forall (c : Component) (l : Loop) (events : list Event),
    video l = videoRef (stopStream c) ->
    forallb keepsVideoOff events = true ->
    calls (log (run events l)) = calls (log l).
Proof.
  intros c l events Hv He. apply quiet_run; [|exact He].
  rewrite Hv. unfold stopStream.
  destruct (videoRef c) eqn:E; simpl; rewrite ?E; reflexivity.
Qed.

Lemma ends_step (e : Event) (l : Loop) :
  (stopped (step e l) = true -> stopped l = true \/ e = Cleanup)
  /\ (pc (step e l) = Returned -> pc l = Returned \/ stopped l = true)
  /\ (pc (step e l) = Rejected -> pc l = Rejected \/ e = DetectRejects).
Proof.
  destruct e; simpl; auto;
    destruct (pc l) eqn:Epc; simpl; rewrite ?Epc; auto;
    try (destruct (due <=? clock l); rewrite ?Epc; auto;
         unfold loopHead;
         destruct (stopped l) eqn:Es;
         [|destruct (videoLive (video l))]; simpl);
    repeat split; intros; auto; try discriminate; try congruence.
Qed.

(** X8. A run of the loop ends in two ways only: it returns only after
    the effect's cleanup has run, and it is rejected only after an
    extraction has rejected. Time passing, timers, a paused video or any
    number of resolved extractions never end it. *)
Theorem loop_ends_only_by_cleanup_or_rejection :
  forall (modelsLoaded : bool) (v : option VideoElement)
         (cached : list Detection) (t0 : nat) (l0 : Loop)
         (events : list Event),
    detectEffect modelsLoaded v cached t0 = Some l0 ->
    (pc (run events l0) = Returned -> In Cleanup events)
    /\ (pc (run events l0) = Rejected -> In DetectRejects events).
Proof.
  intros modelsLoaded v cached t0 l0 events H.
  assert (H0 : stopped l0 = false /\ pc l0 <> Returned /\ pc l0 <> Rejected).
  { unfold detectEffect in H. destruct v as [e|]; [|discriminate].
    destruct modelsLoaded; simpl in H; [|discriminate].
    injection H as <-. unfold loopHead. simpl.
    destruct (negb (paused e) && negb (ended e)); simpl;
      repeat split; discriminate. }
  destruct H0 as (Hs0 & Hr0 & Hj0).
  assert (Hinv : (stopped (run events l0) = true -> In Cleanup events)
                 /\ (pc (run events l0) = Returned -> In Cleanup events)
                 /\ (pc (run events l0) = Rejected -> In DetectRejects events)).
  { induction events as [|e events IH] using rev_ind.
    - simpl. repeat split; intros; congruence.
    - rewrite DetectLoopFacts.run_snoc.
      destruct IH as (IHs & IHr & IHj).
      destruct (ends_step e (run events l0)) as (Es & Er & Ej).
      repeat split; intros Hx; apply in_or_app.
      + destruct (Es Hx) as [Hy| ->]; [left; auto|right; now left].
      + destruct (Er Hx) as [Hy|Hy]; left; auto.
      + destruct (Ej Hx) as [Hy| ->]; [left; auto|right; now left]. }
  destruct Hinv as (_ & Hr & Hj). split; assumption.
Qed.

Lemma snapshot_step (e : Event) (l : Loop) :
  lastDetections (step e l) = lastDetections l
  \/ e = DetectResolves (lastDetections (step e l)).
Proof.
  destruct e; simpl; auto.
  - destruct (pc l); simpl; auto.
  - destruct (pc l); simpl; auto.
  - destruct (pc l); simpl; auto. destruct (due <=? clock l); auto.
    unfold loopHead.
    destruct (stopped l); [|destruct (videoLive (video l))]; simpl; auto.
Qed.

(** X9. The cached snapshot is never anything but the result of an
    extraction: at any moment it is the snapshot the run started with or
    the detections of one of the extractions that resolved. Nothing else
    (a stop, a pause, a failure, time) changes or clears it. *)
Theorem snapshot_is_always_an_extraction_result :
  forall (l : Loop) (events : list Event),
    lastDetections (run events l) = lastDetections l
    \/ In (DetectResolves (lastDetections (run events l))) events.
Proof.
  intros l events. induction events as [|e events IH] using rev_ind.
  - now left.
  - rewrite DetectLoopFacts.run_snoc.
    destruct (snapshot_step e (run events l)) as [Hsame|He].
    + rewrite Hsame. destruct IH as [IH|IH]; [now left|].
      right. apply in_or_app. now left.
    + right. apply in_or_app. right. left. exact He.
Qed.

Lemma no_extraction_while_the_video_is_off_witness :
  calls (log (run [Elapse 200; TimerFires; Elapse 200; TimerFires]
                  (step (VideoChanges None) (run Demo.twoPolls Demo.loop0))))
  = 2.
Proof.
  exact (proj1 (@no_extraction_while_the_video_is_off
                  (step (VideoChanges None) (run Demo.twoPolls Demo.loop0))
                  [Elapse 200; TimerFires; Elapse 200; TimerFires]
                  eq_refl eq_refl)).
Defined.

Lemma no_extraction_after_stopStream_witness :
  calls (log (run [Elapse 200; TimerFires; Elapse 200; TimerFires]
                  (step (VideoChanges (videoRef (stopStream Demo.component0)))
                        (run Demo.twoPolls Demo.loop0))))
  = 2.
Proof.
  exact (@no_extraction_after_stopStream Demo.component0
           (step (VideoChanges (videoRef (stopStream Demo.component0)))
                 (run Demo.twoPolls Demo.loop0))
           [Elapse 200; TimerFires; Elapse 200; TimerFires]
           eq_refl eq_refl).
Defined.

Lemma loop_ends_only_by_cleanup_or_rejection_witness :
  pc (run [Elapse 50; Cleanup; DetectResolves []; Elapse 200; TimerFires]
          Demo.loop0) = Returned
  /\ In Cleanup [Elapse 50; Cleanup; DetectResolves []; Elapse 200; TimerFires].
Proof.
  split; [reflexivity|].
  exact (proj1 (@loop_ends_only_by_cleanup_or_rejection
                  true (Some Demo.video0) [] 0 Demo.loop0
                  [Elapse 50; Cleanup; DetectResolves []; Elapse 200; TimerFires]
                  eq_refl) eq_refl).
Defined.

End LoopProps.

Module SessionProps.
Import Js VideoStream Controls.

(** X10. [startStream] reports a playing session only when [play()] has
    resolved on a mounted video element with a non-empty URL, and when it
    newly reports one its error message is empty. With an empty URL it
    does nothing but ask for one. *)
Theorem startStream_plays_only_after_play_resolves :
  forall (env : StartOutcome) (c : Component),
    (isPlaying (startStream env c) = true ->
     isPlaying c = true
     \/ (play env = None /\ videoRef c <> None
         /\ streamUrl c <> EmptyString
         /\ error (startStream env c) = EmptyString))
    /\ (streamUrl c = EmptyString ->
        startStream env c = set_error "Please enter a stream URL" c).
Proof.
  intros env c. split.
  - unfold startStream.
    destruct (String.eqb (streamUrl c) EmptyString) eqn:Eurl; [simpl; auto|].
    apply String.eqb_neq in Eurl. cbv zeta.
    destruct (String.prefix "http" (streamUrl (set_error EmptyString c))).
    + simpl. destruct (videoRef c) eqn:Ev; [|simpl; auto].
      destruct (play env) eqn:Ep; simpl; auto.
      intros _. right. repeat split; auto. discriminate.
    + destruct (getUserMedia env); [|simpl; auto].
      simpl. destruct (videoRef c) eqn:Ev; [|simpl; auto].
      destruct (play env) eqn:Ep; simpl; auto.
      intros _. right. repeat split; auto. discriminate.
  - intros Hurl. unfold startStream. now rewrite Hurl.
Qed.

(** X11. Every non-empty URL that does not start with [http] is taken
    for the camera: the URL itself is never loaded into the video
    element, and a refused camera is reported with the browser's
    message while the session stays as it was. *)
Theorem non_http_url_opens_the_camera :
  forall (env : StartOutcome) (c : Component),
    streamUrl c <> EmptyString ->
    String.prefix "http" (streamUrl c) = false ->
    (forall v', videoRef (startStream env c) = Some v' ->
                exists v, videoRef c = Some v /\ src v' = src v)
    /\ (forall message,
          getUserMedia env = inr message ->
          startStream env c = set_error (startFailure message) c)
    /\ (forall stream v,
          getUserMedia env = inl stream -> videoRef c = Some v ->
          exists v', videoRef (startStream env c) = Some v'
                     /\ srcObject v' = Some stream).
Proof.
  intros env c Hurl Hpre.
  apply String.eqb_neq in Hurl.
  unfold startStream. rewrite Hurl. cbv zeta.
  change (streamUrl (set_error EmptyString c)) with (streamUrl c).
  rewrite Hpre. repeat split.
  - intros v'. destruct (getUserMedia env); simpl.
    + destruct (videoRef c) as [v|] eqn:Ev; simpl; [|now rewrite Ev].
      destruct (play env); simpl; intros [= <-]; exists v; auto.
    + intros Hv. exists v'. auto.
  - intros message ->. reflexivity.
  - intros stream v -> Hv. simpl. rewrite Hv.
    destruct (play env); simpl; eexists; split; reflexivity.
Qed.

(** X12. A camera stream whose playback fails is not recorded for
    release: when [getUserMedia] resolves but [play()] rejects, the
    stream is attached to the video element and the failure reported,
    but [streamRef] is left as it was, so that [stopStream] stops none of
    its tracks. *)
Theorem failed_camera_start_keeps_no_handle :
  forall (env : StartOutcome) (c : Component) (stream : nat)
         (message : string) (v : VideoElement),
    streamUrl c <> EmptyString ->
    String.prefix "http" (streamUrl c) = false ->
    getUserMedia env = inl stream ->
    play env = Some message ->
    videoRef c = Some v ->
    releasedByStop (startStream env c) = releasedByStop c
    /\ (exists v', videoRef (startStream env c) = Some v'
                   /\ srcObject v' = Some stream)
    /\ error (startStream env c) = startFailure message
    /\ isPlaying (startStream env c) = isPlaying c.
Proof.
  intros env c stream message v Hurl Hpre Hmedia Hplay Hv.
  apply String.eqb_neq in Hurl.
  unfold startStream, releasedByStop. rewrite Hurl. cbv zeta.
  change (streamUrl (set_error EmptyString c)) with (streamUrl c).
  rewrite Hpre, Hmedia. simpl. rewrite Hv, Hplay. simpl.
  repeat split. eexists. split; reflexivity.
Qed.

Lemma stopStream_fields (c : Component) :
  isPlaying (stopStream c) = false
  /\ streamRef (stopStream c) = None
  /\ modelsLoaded (stopStream c) = modelsLoaded c
  /\ error (stopStream c) = error c
  /\ lastDetectionsRef (stopStream c) = lastDetectionsRef c
  /\ faceDatabase (stopStream c) = faceDatabase c
  /\ detectionStats (stopStream c) = detectionStats c.
Proof. unfold stopStream. destruct (videoRef c); repeat split. Qed.

(** X13. [stopStream] always leaves the session stopped: not playing, no
    stream held, the render loop inactive, and the video element, when
    mounted, paused with an empty source. It keeps the cached snapshot,
    the stats, the error and the models as they are, and stopping twice
    is stopping once. *)
Theorem stopStream_stops_and_is_idempotent :
  forall c : Component,
    isPlaying (stopStream c) = false
    /\ streamRef (stopStream c) = None
    /\ renderLoopActive (stopStream c) = false
    /\ (forall v, videoRef (stopStream c) = Some v ->
                  paused v = true /\ src v = EmptyString)
    /\ lastDetectionsRef (stopStream c) = lastDetectionsRef c
    /\ detectionStats (stopStream c) = detectionStats c
    /\ error (stopStream c) = error c
    /\ modelsLoaded (stopStream c) = modelsLoaded c
    /\ stopStream (stopStream c) = stopStream c.
Proof.
  intros c.
  destruct (stopStream_fields c) as (Hp & Hs & Hm & He & Hl & _ & Hd).
  split; [exact Hp|]. split; [exact Hs|].
  split; [unfold renderLoopActive; now rewrite Hp|].
  split.
  { intros v Hv. unfold stopStream in Hv.
    destruct (videoRef c) eqn:Ev; simpl in Hv; [|congruence].
    injection Hv as <-. split; reflexivity. }
  split; [exact Hl|]. split; [exact Hd|]. split; [exact He|].
  split; [exact Hm|].
  unfold stopStream. destruct (videoRef c) eqn:Ev; simpl; [reflexivity|].
  now rewrite Ev.
Qed.

(** X14. A camera session that started is released by stopping it: after
    a start on the camera path in which both awaited calls resolved, the
    session plays, the stream [stopStream] will stop is the one
    [getUserMedia] gave, and after [stopStream] nothing is held and the
    render loop is inactive. *)
Theorem camera_session_is_released_by_stop :
  forall (env : StartOutcome) (c : Component) (stream : nat) (v : VideoElement),
    streamUrl c <> EmptyString ->
    String.prefix "http" (streamUrl c) = false ->
    getUserMedia env = inl stream ->
    play env = None ->
    videoRef c = Some v ->
    isPlaying (startStream env c) = true
    /\ releasedByStop (startStream env c) = Some stream
    /\ streamRef (stopStream (startStream env c)) = None
    /\ isPlaying (stopStream (startStream env c)) = false.
Proof.
  intros env c stream v Hurl Hpre Hmedia Hplay Hv.
  destruct (stopStream_fields (startStream env c)) as (Hp & Hs & _).
  repeat split; auto.
  all: apply String.eqb_neq in Hurl;
    unfold startStream, releasedByStop; rewrite Hurl; cbv zeta;
    change (streamUrl (set_error EmptyString c)) with (streamUrl c);
    rewrite Hpre, Hmedia; simpl; rewrite Hv, Hplay; reflexivity.
Qed.

Lemma act_without_models (a : UiAction) (c : Component) :
  modelsLoaded c = false -> act a c = c.
Proof.
  intros Hm. destruct a; simpl.
  - unfold clickStartStop. now rewrite Hm.
  - unfold autoStartEffect. rewrite Hm. now rewrite andb_false_r.
Qed.

(** X15. When the models fail to load, the failure is reported and the
    session can not be started from the controls any more: whatever
    clicks on the button and runs of the auto-start effect follow, the
    component stays exactly as the failed load left it. *)
Theorem failed_model_load_disables_the_controls :
  forall (c : Component) (actions : list UiAction),
    modelsLoaded c = false ->
    error (loadModels false c) = modelsFailed
    /\ isPlaying (loadModels false c) = isPlaying c
    /\ actAll actions (loadModels false c) = loadModels false c.
Proof.
  intros c actions Hm. repeat split.
  unfold actAll. induction actions as [|a actions IH]; simpl; [reflexivity|].
  rewrite act_without_models; [exact IH|exact Hm].
Qed.

(** X16. "Use Webcam" starts the camera by itself: once access was
    granted the URL is [webcam], App turns auto-start on, and as soon as
    the models are loaded the effect starts a camera session on the
    mounted video. A refused access changes nothing, and for any other
    URL the auto-start effect does nothing. *)
Theorem use_webcam_starts_the_camera :
  forall (a : App) (c : Component) (env : StartOutcome)
         (stream : nat) (v : VideoElement),
    getUserMedia env = inl stream ->
    play env = None ->
    videoRef c = Some v ->
    isPlaying c = false ->
    (let c' := autoStartEffect env
                 (loadModels true (withProps (handleWebcamAccess true a) c)) in
     isPlaying c' = true /\ streamRef c' = Some stream
     /\ renderLoopActive c' = true)
    /\ handleWebcamAccess false a = a
    /\ (app_streamUrl a <> "webcam"%string ->
        autoStartEffect env (loadModels true (withProps a c))
        = loadModels true (withProps a c)).
Proof.
  intros a c env stream v Hmedia Hplay Hv Hp. split; [|split].
  - unfold autoStartEffect, loadModels, withProps, handleWebcamAccess.
    simpl. rewrite Hp. simpl.
    unfold startStream. simpl. rewrite Hmedia. simpl.
    rewrite Hv, Hplay. repeat split.
  - reflexivity.
  - intros Hurl. apply String.eqb_neq in Hurl.
    unfold autoStartEffect, loadModels, withProps. simpl. now rewrite Hurl.
Qed.

Lemma startStream_plays_only_after_play_resolves_witness :
  isPlaying (startStream Demo.granted (Demo.idle "http://camera/stream")) = true
  /\ play Demo.granted = None.
Proof.
  split; [reflexivity|].
  destruct (proj1 (startStream_plays_only_after_play_resolves
                     Demo.granted (Demo.idle "http://camera/stream")) eq_refl)
    as [Hp|(Hplay & _)]; [discriminate Hp|exact Hplay].
Defined.

Lemma non_http_url_opens_the_camera_witness :
  startStream Demo.refused (Demo.idle "rtmp://studio/live")
  = set_error (startFailure "Permission denied") (Demo.idle "rtmp://studio/live").
Proof.
  destruct (@non_http_url_opens_the_camera Demo.refused
              (Demo.idle "rtmp://studio/live")) as (_ & H & _).
  - discriminate.
  - reflexivity.
  - exact (H "Permission denied"%string eq_refl).
Defined.

Lemma failed_camera_start_keeps_no_handle_witness :
  releasedByStop (startStream Demo.interrupted (Demo.idle "webcam")) = None
  /\ error (startStream Demo.interrupted (Demo.idle "webcam"))
     = startFailure "The play() request was interrupted".
Proof.
  destruct (@failed_camera_start_keeps_no_handle Demo.interrupted
              (Demo.idle "webcam") 1 "The play() request was interrupted"
              Demo.video0) as (H1 & _ & H2 & _);
    try reflexivity; try discriminate.
  split; [exact H1|exact H2].
Defined.

Lemma stopStream_stops_and_is_idempotent_witness :
  exists v, videoRef (stopStream Demo.component0) = Some v
            /\ paused v = true /\ src v = EmptyString.
Proof.
  destruct (stopStream_stops_and_is_idempotent Demo.component0)
    as (_ & _ & _ & H & _).
  eexists. split; [reflexivity|]. apply H. reflexivity.
Defined.

Lemma camera_session_is_released_by_stop_witness :
  releasedByStop (startStream Demo.granted (Demo.idle "webcam")) = Some 1
  /\ streamRef (stopStream (startStream Demo.granted (Demo.idle "webcam"))) = None.
Proof.
  destruct (@camera_session_is_released_by_stop Demo.granted
              (Demo.idle "webcam") 1 Demo.video0) as (_ & H1 & H2 & _);
    try reflexivity; try discriminate.
  split; [exact H1|exact H2].
Defined.

Lemma failed_model_load_disables_the_controls_witness :
  actAll [Click Demo.granted; AutoStart Demo.granted; Click Demo.granted]
         (loadModels false Demo.loading)
  = loadModels false Demo.loading.
Proof.
  destruct (@failed_model_load_disables_the_controls Demo.loading
              [Click Demo.granted; AutoStart Demo.granted; Click Demo.granted]
              eq_refl) as (_ & _ & H).
  exact H.
Defined.

Lemma use_webcam_starts_the_camera_witness :
  isPlaying (autoStartEffect Demo.granted
               (loadModels true
                  (withProps (handleWebcamAccess true Demo.app0) Demo.loading)))
  = true.
Proof.
  destruct (@use_webcam_starts_the_camera Demo.app0 Demo.loading Demo.granted
              1 Demo.video0 eq_refl eq_refl eq_refl eq_refl) as [H _].
  exact (proj1 H).
Defined.

End SessionProps.

Module GalleryProps.
Import Js FaceManager ImportShapes.

(* --------------------------------------------------------------------- *)
(** *** Names and removal *)

(** X17. The display name is the part of the file name before its first
    dot: it holds no dot, and the file name is that part followed by
    nothing or by a dot and the rest. *)
Theorem beforeDot_is_the_first_segment :
  forall s : string,
    noDot (beforeDot s)
    /\ exists rest,
         s = (beforeDot s ++ rest)%string
         /\ (rest = EmptyString \/ exists r, rest = String "."%char r).
Proof.
  induction s as [|c s [IHn (rest & IHs & IHr)]]; simpl.
  - split; [intros []|]. exists EmptyString. auto.
  - destruct (Ascii.eqb c ".") eqn:E.
    + apply Ascii.eqb_eq in E. subst c. split; [intros []|].
      exists (String "."%char s). split; [reflexivity|]. right. eauto.
    + apply Ascii.eqb_neq in E. split.
      * simpl. intros [H|H]; [congruence|exact (IHn H)].
      * exists rest. split; [|exact IHr]. simpl. now rewrite <- IHs.
Qed.

Lemma idDiffers_spec (id : string) (face : Face) :
  idDiffers id face = true <-> face_id face <> Some (JStr id).
Proof.
  unfold idDiffers. destruct (face_id face) as [[| | |s| |]|];
    try (split; [discriminate|reflexivity]).
  rewrite negb_true_iff. split.
  - intros H Heq. injection Heq as ->. now rewrite String.eqb_refl in H.
  - intros H. apply String.eqb_neq. congruence.
Qed.

Lemma filter_all {A} (p : A -> bool) (l : list A) :
  Forall (fun a => p a = true) l -> filter p l = l.
Proof.
  induction 1 as [|a l Ha _ IH]; simpl; [reflexivity|].
  now rewrite Ha, IH.
Qed.

Lemma filter_twice {A} (p : A -> bool) (l : list A) :
  filter p (filter p l) = filter p l.
Proof.
  apply filter_all. apply Forall_forall. intros a Ha.
  now apply filter_In in Ha.
Qed.

(** X18. [removeFace] removes exactly the entries whose id is the given
    string, all of them if several share it, and keeps every other
    entry; it touches nothing else of the component, removing twice is
    removing once, and removing an id no entry has changes nothing. *)
Theorem removeFace_removes_exactly_that_id :
  forall (id : string) (m : Manager),
    (forall face,
       In face (faceDatabase (removeFace id m))
       <-> In face (faceDatabase m) /\ face_id face <> Some (JStr id))
    /\ error (removeFace id m) = error m
    /\ processing (removeFace id m) = processing m
    /\ removeFace id (removeFace id m) = removeFace id m
    /\ (Forall (fun face => face_id face <> Some (JStr id)) (faceDatabase m) ->
        removeFace id m = m).
Proof.
  intros id m. split; [|split; [|split; [|split]]]; try reflexivity.
  - intros face. simpl. rewrite filter_In, idDiffers_spec. reflexivity.
  - unfold removeFace. simpl. now rewrite filter_twice.
  - intros Habsent. unfold removeFace. rewrite filter_all.
    + destruct m; reflexivity.
    + eapply Forall_impl; [|exact Habsent]. intros face.
      apply idDiffers_spec.
Qed.

Section WithImages.
Context {I : ImagePlatform}.

(** X19. Enrolling one file and removing the id it was given gives the
    gallery back, provided no entry had that id before. *)
Theorem enroll_then_remove_restores_the_gallery :
  forall (now : nat -> Z) (file : File) (m m' : Manager),
    Forall (fun face => face_id face <> Some (JStr (decimalZ (now 0%nat + 0))))
           (faceDatabase m) ->
    handleFileSelect now [file] m = Resolved m' ->
    faceDatabase (removeFace (decimalZ (now 0%nat + 0)) m') = faceDatabase m.
Proof.
  intros now file m m' Habsent.
  assert (Hkeep : filter (idDiffers (decimalZ (now 0%nat + 0))) (faceDatabase m)
                  = faceDatabase m).
  { apply filter_all. eapply Forall_impl; [|exact Habsent].
    intros face. apply idDiffers_spec. }
  unfold handleFileSelect. simpl.
  destruct (negb (String.prefix "image/" (file_type file))); simpl.
  - intros [= <-]. simpl. exact Hkeep.
  - destruct (processImage file (beforeDot (file_name file)))
      as [[[d image]|]|]; simpl; [| |discriminate].
    + intros [= <-]. simpl. rewrite filter_app, Hkeep. simpl.
      unfold idDiffers, face_id. simpl.
      rewrite String.eqb_refl. simpl. now rewrite app_nil_r.
    + intros [= <-]. simpl. exact Hkeep.
Qed.

Lemma enrollLoop_stalls (now : nat -> Z) (f : File) (files : list File) :
  In f files -> isImage f = true -> decodes f = false ->
  forall i acc, enrollLoop now i files acc = Pending.
Proof.
  intros Hin Himg Hdec.
  induction files as [|g files IH]; [destruct Hin|].
  intros i acc. simpl. destruct Hin as [->|Hin].
  - unfold isImage in Himg. rewrite Himg. simpl.
    unfold processImage. unfold decodes in Hdec.
    destruct (loadImage f); [discriminate|reflexivity].
  - destruct (negb (String.prefix "image/" (file_type g))); [now apply IH|].
    destruct (processImage g (beforeDot (file_name g))) as [[[d image]|]|];
      [now apply IH|now apply IH|reflexivity].
Qed.

(** X20. One file of image type that the browser can not decode stalls
    the whole batch: [handleFileSelect] never settles, wherever the file
    stands in the batch and whatever the other files are, so that no
    face of the batch is added and no error is shown. *)
Theorem undecodable_image_stalls_the_batch :
  forall (now : nat -> Z) (files : list File) (m : Manager) (f : File),
    In f files -> isImage f = true -> decodes f = false ->
    handleFileSelect now files m = Pending.
Proof.
  intros now files m f Hin Himg Hdec. unfold handleFileSelect.
  now rewrite (enrollLoop_stalls now f files Hin Himg Hdec).
Qed.

Lemma enrollLoop_detector_throws (now : nat -> Z) (files : list File) :
  Forall (fun f => isImage f = true ->
                   exists img e, loadImage f = Some img
                                 /\ detectSingleFace img = Throw e) files ->
  forall i acc, enrollLoop now i files acc = Resolved acc.
Proof.
  induction 1 as [|f files Hf _ IH]; intros i acc; simpl; [reflexivity|].
  unfold isImage in Hf.
  destruct (String.prefix "image/" (file_type f)); simpl; [|apply IH].
  destruct (Hf eq_refl) as (img & e & Hload & Hthrow).
  unfold processImage. rewrite Hload.
  destruct (getContext2d f); simpl; [|apply IH].
  rewrite Hthrow. apply IH.
Qed.

(** X21. A detector that throws is reported as images without faces:
    when the detector throws on every image of a batch, the batch
    completes, the gallery is unchanged and the message is the one for
    "no faces detected". *)
Theorem detector_failure_is_reported_as_no_faces :
  forall (now : nat -> Z) (files : list File) (m : Manager),
    Forall (fun f => isImage f = true ->
                     exists img e, loadImage f = Some img
                                   /\ detectSingleFace img = Throw e) files ->
    handleFileSelect now files m
    = Resolved {| faceDatabase := faceDatabase m; processing := false;
                  error := noFacesDetected |}.
Proof.
  intros now files m H. unfold handleFileSelect.
  now rewrite (enrollLoop_detector_throws now H 0 []).
Qed.

End WithImages.

Lemma removeFace_removes_exactly_that_id_witness :
  removeFace "9" Demo.afterThree = Demo.afterThree
  /\ ids (faceDatabase (removeFace "1000" Demo.afterThree))
     = [Some (JStr "1"); Some (JStr "1082")].
Proof.
  destruct (removeFace_removes_exactly_that_id "9" Demo.afterThree)
    as (_ & _ & _ & _ & H).
  split; [|reflexivity].
  apply H. repeat constructor; discriminate.
Defined.

Lemma enroll_then_remove_restores_the_gallery_witness :
  faceDatabase
    (removeFace "1000"
       {| faceDatabase :=
            [Demo.known;
             newFace "1000" "ann" [Finite 1; Finite 0]
                     "data:image/jpeg;base64,portrait"];
          processing := false; error := EmptyString |})
  = [Demo.known].
Proof.
  apply (@enroll_then_remove_restores_the_gallery Demo.images
           (fun _ => 1000%Z) (Demo.portrait "ann.jpg") Demo.manager0).
  - repeat constructor; discriminate.
  - reflexivity.
Defined.

Lemma undecodable_image_stalls_the_batch_witness :
  handleFileSelect (I := Demo.images) (fun _ => 1000%Z)
    [Demo.portrait "ann.jpg"; Demo.corrupt; Demo.portrait "bob.jpg"]
    Demo.manager0
  = Pending.
Proof.
  apply (@undecodable_image_stalls_the_batch Demo.images (fun _ => 1000%Z)
           [Demo.portrait "ann.jpg"; Demo.corrupt; Demo.portrait "bob.jpg"]
           Demo.manager0 Demo.corrupt).
  - right. now left.
  - reflexivity.
  - reflexivity.
Defined.

Lemma detector_failure_is_reported_as_no_faces_witness :
  handleFileSelect (I := Demo.images) (fun _ => 1000%Z)
    [Demo.blank; Demo.notes] Demo.manager0
  = Resolved {| faceDatabase := [Demo.known]; processing := false;
                error := noFacesDetected |}.
Proof.
  apply (@detector_failure_is_reported_as_no_faces Demo.images
           (fun _ => 1000%Z) [Demo.blank; Demo.notes] Demo.manager0).
  repeat constructor.
  - intros _. exists "blank"%string, (OtherError "backend").
    split; reflexivity.
  - discriminate.
Defined.

End GalleryProps.

Module ImportProps.
Import Js FaceManager ImportShapes Exporting.

Lemma decimal_is_a_number (i : nat) (key : string) :
  NilEmpty.uint_of_string key = None -> String.eqb (decimal i) key = false.
Proof.
  intros Hkey. apply String.eqb_neq. intros <-.
  unfold decimal in Hkey. rewrite NilEmpty.usu in Hkey. discriminate.
Qed.

Lemma getProp_indices (key : string) (l : list Json) (a n : nat) :
  NilEmpty.uint_of_string key = None ->
  getProp key (combine (map decimal (seq a n)) l) = None.
Proof.
  intros Hkey. revert a l. induction n as [|n IH]; intros a l; simpl.
  - reflexivity.
  - destruct l as [|v l]; simpl; [reflexivity|].
    rewrite (decimal_is_a_number a key Hkey). apply IH.
Qed.

Lemma deleteProp_indices (key : string) (l : list Json) (a n : nat) :
  NilEmpty.uint_of_string key = None ->
  deleteProp key (combine (map decimal (seq a n)) l)
  = combine (map decimal (seq a n)) l.
Proof.
  intros Hkey. revert a l. induction n as [|n IH]; intros a l; simpl.
  - reflexivity.
  - destruct l as [|v l]; simpl; [reflexivity|].
    rewrite (decimal_is_a_number a key Hkey). now rewrite IH.
Qed.

Lemma getProp_app_absent (key : string) (o o' : list (string * Json)) :
  getProp key o = None -> getProp key (o ++ o') = getProp key o'.
Proof.
  induction o as [|[k v] o IH]; simpl; [reflexivity|].
  destruct (String.eqb k key); [discriminate|exact IH].
Qed.

Lemma deleteProp_app (key : string) (o o' : list (string * Json)) :
  deleteProp key (o ++ o') = deleteProp key o ++ deleteProp key o'.
Proof.
  induction o as [|[k v] o IH]; simpl; [reflexivity|].
  destruct (String.eqb k key); simpl; now rewrite IH.
Qed.

Lemma deleteProp_absent (key : string) (o : list (string * Json)) :
  getProp key o = None -> deleteProp key o = o.
Proof.
  induction o as [|[k v] o IH]; simpl; [reflexivity|].
  destruct (String.eqb k key); [discriminate|].
  intros H. now rewrite IH.
Qed.

Section WithPlatform.
Context {P : Platform}.

Lemma fixFace_notAnObject (face : Json) :
  notAnObject face = true -> fixFace face = Ok (bare face).
Proof. destruct face; try discriminate; reflexivity. Qed.

Lemma mapM_fixFace_bare (data : list Json) :
  forallb notAnObject data = true -> mapM fixFace data = Ok (map bare data).
Proof.
  induction data as [|face data IH]; simpl; [reflexivity|].
  intros H. apply andb_true_iff in H as [Hf Hrest].
  now rewrite (fixFace_notAnObject face Hf), (IH Hrest).
Qed.

(** X22. An array of numbers, strings, booleans and arrays is a valid
    database to the import, on every platform: the gallery is replaced
    by one entry per element, each with an empty descriptor, no id, no
    name and no image, and no error is reported. *)
Theorem import_accepts_elements_that_are_no_objects :
  forall (f : File) (m : Manager) (data : list Json),
    JSON_parse (file_text f) = Some (JArr data) ->
    forallb notAnObject data = true ->
    faceDatabase (importDatabase (Some f) m) = map bare data
    /\ error (importDatabase (Some f) m) = error m
    /\ Forall (fun entry => descriptor entry = []
                            /\ face_id entry = None
                            /\ face_name entry = None
                            /\ face_image entry = None)
              (faceDatabase (importDatabase (Some f) m)).
Proof.
  intros f m data Hparse Hshape. unfold importDatabase.
  rewrite Hparse, (mapM_fixFace_bare data Hshape). simpl.
  repeat split. apply Forall_forall. intros entry Hin.
  apply in_map_iff in Hin as (face & <- & Hin).
  rewrite forallb_forall in Hshape. specialize (Hshape face Hin).
  unfold face_id, face_name, face_image, bare. simpl.
  destruct face as [|b|n|s|elems|o]; try discriminate; simpl;
    repeat split; try reflexivity;
    unfold indexed;
    rewrite (@deleteProp_indices "descriptor" _ 0 _ eq_refl);
    apply getProp_indices; reflexivity.
Qed.

Lemma fixFace_exported (e : Face) :
  wellFormed e -> fixFace (faceToJson e) = Ok (stripped e).
Proof.
  unfold wellFormed. intros Hwf. unfold fixFace, faceToJson. simpl.
  rewrite getProp_app_absent by exact Hwf. simpl.
  unfold indexed.
  rewrite (@getProp_indices "length" _ 0 _ eq_refl). simpl.
  rewrite deleteProp_app, deleteProp_absent by exact Hwf. simpl.
  now rewrite app_nil_r.
Qed.

Lemma mapM_fixFace_exported (db : list Face) :
  Forall wellFormed db ->
  mapM fixFace (map faceToJson db) = Ok (map stripped db).
Proof.
  induction 1 as [|e db He _ IH]; simpl; [reflexivity|].
  now rewrite (fixFace_exported He), IH.
Qed.

(** X23. Export followed by import loses every descriptor. The file
    [exportDatabase] writes holds each Float32Array as an object keyed
    by index; importing a file that parses to that value succeeds
    without an error and restores every entry with its properties, but
    with an empty descriptor. *)
Theorem reimported_export_has_empty_descriptors :
  forall (f : File) (m : Manager) (db : list Face),
    Forall wellFormed db ->
    JSON_parse (file_text f) = Some (exported db) ->
    faceDatabase (importDatabase (Some f) m) = map stripped db
    /\ map props (faceDatabase (importDatabase (Some f) m)) = map props db
    /\ Forall (fun entry => descriptor entry = [])
              (faceDatabase (importDatabase (Some f) m))
    /\ error (importDatabase (Some f) m) = error m.
Proof.
  intros f m db Hwf Hparse. unfold importDatabase, exported in *.
  rewrite Hparse, (mapM_fixFace_exported Hwf). simpl.
  repeat split.
  - rewrite map_map. reflexivity.
  - apply Forall_forall. intros entry Hin.
    apply in_map_iff in Hin as (e & <- & _). reflexivity.
Qed.

(** X24. An edit of the gallery reaches the matcher with the next
    props: once App holds the gallery [removeFace] produced, a scan for
    a detection that ends with a verdict ends with true exactly when an
    entry with another id is closer to the detection than the threshold,
    whatever it matched before. *)
Theorem removal_reaches_the_next_frame :
  forall (a : Controls.App) (c : VideoStream.Component) (m : Manager)
         (id : string) (d : VideoStream.Detection) (b : bool),
    VideoStream.shouldBlur d
      (VideoStream.faceDatabase
         (Controls.withProps
            (Controls.setFaceDatabase (faceDatabase (removeFace id m)) a) c))
    = Ok b ->
    (b = true
     <-> exists k,
           In k (faceDatabase m)
           /\ face_id k <> Some (JStr id)
           /\ Spec.near (VideoStream.det_descriptor d) k = true).
Proof.
  intros a c m id d b. simpl.
  rewrite (proj1 (MatcherFacts.shouldBlur_scan d _)). intros Hscan. split.
  - intros ->.
    destruct (MatcherFacts.scanDatabase_found _ _ Hscan)
      as (pre & k & post & Hsplit & _ & Hnear & _).
    assert (Hin : In k (filter (idDiffers id) (faceDatabase m))).
    { rewrite Hsplit. apply in_or_app. right. now left. }
    apply filter_In in Hin as [Hin Hid].
    exists k. repeat split; auto. now apply GalleryProps.idDiffers_spec.
  - intros (k & Hin & Hid & Hnear). destruct b; [reflexivity|]. exfalso.
    destruct (MatcherFacts.scanDatabase_not_found _ _ Hscan) as [Hfar _].
    rewrite Forall_forall in Hfar.
    apply (MatcherFacts.near_not_far _ _ Hnear), Hfar.
    apply filter_In. split; [exact Hin|].
    now apply GalleryProps.idDiffers_spec.
Qed.

End WithPlatform.

Lemma import_accepts_elements_that_are_no_objects_witness :
  faceDatabase (importDatabase (P := Demo.reader)
                  (Some (Demo.document "[1,true]")) Demo.manager0)
  = [bare (JNum 1); bare (JBool true)].
Proof.
  exact (proj1 (@import_accepts_elements_that_are_no_objects Demo.reader
                  (Demo.document "[1,true]") Demo.manager0
                  [JNum 1; JBool true] eq_refl eq_refl)).
Defined.

Lemma reimported_export_has_empty_descriptors_witness :
  faceDatabase (importDatabase (P := Demo.reader)
                  (Some (Demo.document Demo.exported7)) Demo.manager0)
  = [stripped Demo.face7].
Proof.
  apply (@reimported_export_has_empty_descriptors Demo.reader
           (Demo.document Demo.exported7) Demo.manager0 [Demo.face7]).
  - repeat constructor.
  - reflexivity.
Defined.

(** The enrolled face removed from the demo gallery, which then holds
    a far face only: the detection near the removed face is no longer
    redacted. *)
Lemma removal_reaches_the_next_frame_witness :
  VideoStream.shouldBlur (P := Demo.platform) Demo.seen
    (faceDatabase (removeFace "1" Demo.twoKnown))
  = Ok false
  /\ ~ exists k,
        In k (faceDatabase Demo.twoKnown)
        /\ face_id k <> Some (JStr "1")
        /\ Spec.near (P := Demo.platform)
             (VideoStream.det_descriptor Demo.seen) k = true.
Proof.
  split; [reflexivity|].
  intros H.
  apply (@removal_reaches_the_next_frame Demo.platform Demo.app0
           Demo.component0 Demo.twoKnown "1" Demo.seen false eq_refl) in H.
  discriminate H.
Defined.

End ImportProps.
